(** * Key-ring service, request handlers, fee configuration and account store

    A shallow embedding of the TypeScript sources of the wallet extension:

    - [Keyring]    : the key ring the service delegates to (keyring.ts);
    - [Background] : the state the background process shares, and the chain
                     registry, permission and interaction services;
    - [Service]    : [KeyRingService] (service.ts);
    - [Handler]    : the message handlers of the key ring (handler.ts);
    - [Fee]        : [FeeConfig] of the transaction hooks (hooks/src/tx);
    - [Account]    : [AccountStoreInner] (stores/src/account/index.ts).

    Asynchronous methods are embedded in a state-and-exception monad: an
    [await] is a sequencing point, a [throw] (or a rejected promise) is the
    [Throw] result, and the mutable objects the code shares are fields of the
    state that is threaded through. *)

From Stdlib Require Import ZArith QArith Lia Bool List String Ascii.
From Stdlib.Strings Require Import Byte.
From stdpp Require Import base option list strings pretty gmap.

Open Scope string_scope.
Open Scope list_scope.

(** ** JavaScript values, errors and results *)

(** Raw bytes ([Uint8Array]). *)
Definition bytes : Type := list byte.

(** What the code throws.  [JsError m] is [new Error(m)] as written in the
    sources; the other constructors name the failures of collaborators whose
    code is outside the sources, after the error taxonomy of the design. *)
Inductive Error : Type :=
| JsError (message : string)
| TypeError (message : string)
| WrongPassword
| KeyRingNotUnlockedError
| NoKeyError
| IndexOutOfRange
| UserRejectedError
| ChainUnknownError
| OriginNotAllowedError
| CoinTypeAlreadySetError
| ExternalError (what : string).

(** The outcome of a call: a value, or a thrown error. *)
Inductive Res (A : Type) : Type :=
| Ok (a : A)
| Throw (e : Error).
Arguments Ok {A} a.
Arguments Throw {A} e.

(** State-and-exception monad.  A thrown error keeps the state reached so far:
    JavaScript does not roll assignments back. *)
Definition M (S A : Type) : Type := S -> Res A * S.

Definition ret {S A} (a : A) : M S A := fun s => (Ok a, s).

Definition throw {S A} (e : Error) : M S A := fun s => (Throw e, s).

Definition bind {S A B} (m : M S A) (k : A -> M S B) : M S B :=
  fun s =>
    match m s with
    | (Ok a, s') => k a s'
    | (Throw e, s') => (Throw e, s')
    end.

(** [try { m } catch (e) { h e }]. *)
Definition tryCatch {S A} (m : M S A) (h : Error -> M S A) : M S A :=
  fun s =>
    match m s with
    | (Ok a, s') => (Ok a, s')
    | (Throw e, s') => h e s'
    end.

Definition get {S} : M S S := fun s => (Ok s, s).
Definition gets {S A} (f : S -> A) : M S A := fun s => (Ok (f s), s).
Definition modify {S} (f : S -> S) : M S unit := fun s => (Ok tt, f s).

Notation "'let!' x ':=' m 'in' k" := (bind m (fun x => k))
  (at level 10, x pattern, m at level 100, k at level 200).
Notation "m ';;;' k" := (bind m (fun _ => k))
  (at level 100, k at level 200, right associativity).

(** Monadic [for (const x of xs) { result.push(await f x) }]. *)
Fixpoint forEachPush {S A B} (f : A -> M S B) (xs : list A) : M S (list B) :=
  match xs with
  | [] => ret []
  | x :: xs' =>
      let! y := f x in
      let! ys := forEachPush f xs' in
      ret (y :: ys)
  end.

(** Values a collaborator may hand back where the code types them [unknown].
    [JConfig] is a transaction-builder configuration object. *)
Record TxBuilderConfigPrimitiveWithChainId : Type := {
  cfg_chainId : string;
  cfg_gas : string;
  cfg_memo : string;
  cfg_fee : string;
}.

Inductive JsValue : Type :=
| JUndefined
| JNull
| JBool (b : bool)
| JNumber (z : Z)
| JString (s : string)
| JEmptyObject
| JSignRequest (chainId messageHex : string)
| JConfig (c : TxBuilderConfigPrimitiveWithChainId).

(** JavaScript truthiness, as tested by [if (!result)]. *)
Definition truthy (v : JsValue) : bool :=
  match v with
  | JUndefined | JNull => false
  | JBool b => b
  | JNumber z => negb (z =? 0)%Z
  | JString s => negb (String.eqb s "")
  | JEmptyObject | JSignRequest _ _ | JConfig _ => true
  end.

(** ** The key ring (keyring.ts) *)

Module Keyring.

(** The four lifecycle states, as the popup's state renderer switches on them. *)
Inductive KeyRingStatus : Type := NOTLOADED | EMPTY | LOCKED | UNLOCKED.

Definition KeyRingStatus_eqb (a b : KeyRingStatus) : bool :=
  match a, b with
  | NOTLOADED, NOTLOADED | EMPTY, EMPTY | LOCKED, LOCKED | UNLOCKED, UNLOCKED => true
  | _, _ => false
  end.

Inductive KeyStoreType : Type := MnemonicKey | PrivateKey | LedgerKey.

Record BIP44HDPath : Type := {
  hd_account : nat;
  hd_change : nat;
  hd_addressIndex : nat;
}.

(** Modelled from the spec: the KeyStore record of §3 (keyring.ts and
    crypto.ts are outside the sources).  The ciphertext and its crypto
    parameters are opaque bytes; metadata and the per-chain coin-type
    overrides are stored in the clear beside them. *)
Record KeyStore : Type := {
  ks_type : KeyStoreType;
  ks_ciphertext : bytes;
  ks_meta : gmap string string;
  ks_coinTypeForChain : gmap string nat;
  ks_bip44HDPath : BIP44HDPath;
}.

(** A derived key: [{ algo, pubKey, address }]. *)
Record Key : Type := {
  algo : string;
  pubKey : bytes;
  address : bytes;
}.

(** Modelled from the spec: the MultiKeyStore of §3, an ordered sequence of
    records with a selected index, and the in-memory key ring that owns it.
    [loaded] is false until persistence has been read; [unlocked] says that
    the password was verified in this session. *)
Record KeyRing : Type := {
  loaded : bool;
  multiKeyStore : list KeyStore;
  selected : nat;
  unlocked : bool;
}.

(** The key ring a fresh process starts with. *)
Definition initial : KeyRing :=
  {| loaded := false; multiKeyStore := []; selected := 0; unlocked := false |}.

(** The selected record, if any. *)
Definition keyStore (kr : KeyRing) : option KeyStore :=
  multiKeyStore kr !! selected kr.

(** Modelled from the spec: the lifecycle state of §3 ([get status()] of the
    key ring): NOTLOADED before persistence is read, EMPTY when it holds no
    record, UNLOCKED once the password is verified, LOCKED otherwise. *)
Definition status (kr : KeyRing) : KeyRingStatus :=
  if negb (loaded kr) then NOTLOADED
  else match multiKeyStore kr with
       | [] => EMPTY
       | _ :: _ => if unlocked kr then UNLOCKED else LOCKED
       end.

(** The MultiKeyStore invariant of §3. *)
Definition selectedValid (kr : KeyRing) : Prop :=
  multiKeyStore kr <> [] -> selected kr < length (multiKeyStore kr).

(** One entry of [getMultiKeyStoreInfo()]: the unencrypted view of a record
    and whether it is the selected one. *)
Record KeyStoreInfo : Type := {
  info_type : KeyStoreType;
  info_meta : gmap string string;
  info_coinTypeForChain : gmap string nat;
  info_bip44HDPath : BIP44HDPath;
  info_selected : bool;
}.

Definition MultiKeyStoreInfoWithSelected : Type := list KeyStoreInfo.

Definition getMultiKeyStoreInfo (kr : KeyRing) : MultiKeyStoreInfoWithSelected :=
  imap (fun i ks =>
          {| info_type := ks_type ks;
             info_meta := ks_meta ks;
             info_coinTypeForChain := ks_coinTypeForChain ks;
             info_bip44HDPath := ks_bip44HDPath ks;
             info_selected := Nat.eqb i (selected kr) |})
       (multiKeyStore kr).

(** Modelled from the spec: the coin type resolved for a chain (§4.4): the
    record's explicit override if set, else the chain's default. *)
Definition computeKeyStoreCoinType (ks : KeyStore) (chainId : string)
    (defaultCoinType : nat) : nat :=
  default defaultCoinType (ks_coinTypeForChain ks !! chainId).

(** Modelled from the spec: [isKeyStoreCoinTypeSet] of keyring.ts, whether the
    selected record holds an override for the chain. *)
Definition isKeyStoreCoinTypeSet (chainId : string) (kr : KeyRing) : bool :=
  match keyStore kr with
  | Some ks => bool_decide (is_Some (ks_coinTypeForChain ks !! chainId))
  | None => false
  end.

(** The key sources of §4.2 and the encrypted store of §4.1 are outside the
    sources; the key ring reaches them through this interface.  [deriveKey]
    derives the key of a record for a coin type, [signWith] signs with it
    (a hardware signer may fail), and [decryptOk] is the
    decrypt-as-verification step: whether the password opens the record. *)
Class KeySource : Type := {
  deriveKey : KeyStore -> nat -> Key;
  signWith : KeyStore -> nat -> bytes -> Res bytes;
  decryptOk : KeyStore -> string -> bool;
}.

Section Operations.
Context `{KeySource}.

(** Modelled from the spec: [restore()] of §4.4 (keyring.ts is outside the
    sources).  It reads the persisted collection and selection; a ring that
    was not loaded comes out EMPTY or LOCKED. *)
Definition restore (persisted : list KeyStore * nat) (kr : KeyRing) : KeyRing :=
  {| loaded := true;
     multiKeyStore := fst persisted;
     selected := snd persisted;
     unlocked := loaded kr && unlocked kr |}.

(** Modelled from the spec: [lock()] of §4.4; always succeeds. *)
Definition lock (kr : KeyRing) : KeyRing :=
  {| loaded := loaded kr; multiKeyStore := multiKeyStore kr;
     selected := selected kr; unlocked := false |}.

(** Modelled from the spec: [unlock(password)] of §4.4; decrypts the selected
    record, fails with WrongPassword and leaves the ring as it was. *)
Definition unlock (password : string) (kr : KeyRing) : Res KeyRing :=
  match keyStore kr with
  | None => Throw NoKeyError
  | Some ks =>
      if decryptOk ks password
      then Ok {| loaded := loaded kr; multiKeyStore := multiKeyStore kr;
                 selected := selected kr; unlocked := true |}
      else Throw WrongPassword
  end.

(** Modelled from the spec: deriving the selected record's key for a coin
    type requires UNLOCKED (§4.4), and fails with KeyRingNotUnlockedError
    otherwise. *)
Definition getKeyFromCoinType (coinType : nat) (kr : KeyRing) : Res Key :=
  match status kr, keyStore kr with
  | UNLOCKED, Some ks => Ok (deriveKey ks coinType)
  | UNLOCKED, None => Throw NoKeyError
  | _, _ => Throw KeyRingNotUnlockedError
  end.

(** Modelled from the spec: [getKey(chainId)] of §4.4, called by the service
    with the chain's default coin type. *)
Definition getKey (chainId : string) (defaultCoinType : nat) (kr : KeyRing) : Res Key :=
  match status kr, keyStore kr with
  | UNLOCKED, Some ks =>
      Ok (deriveKey ks (computeKeyStoreCoinType ks chainId defaultCoinType))
  | UNLOCKED, None => Throw NoKeyError
  | _, _ => Throw KeyRingNotUnlockedError
  end.

(** Modelled from the spec: [sign] of §4.2 and §4.4: the selected record signs
    with the coin type resolved for the chain; requires UNLOCKED. *)
Definition sign (chainId : string) (defaultCoinType : nat) (message : bytes)
    (kr : KeyRing) : Res bytes :=
  match status kr, keyStore kr with
  | UNLOCKED, Some ks =>
      signWith ks (computeKeyStoreCoinType ks chainId defaultCoinType) message
  | UNLOCKED, None => Throw NoKeyError
  | _, _ => Throw KeyRingNotUnlockedError
  end.

(** The record with the override for [chainId] written. *)
Definition withCoinType (ks : KeyStore) (chainId : string) (coinType : nat) : KeyStore :=
  {| ks_type := ks_type ks;
     ks_ciphertext := ks_ciphertext ks;
     ks_meta := ks_meta ks;
     ks_coinTypeForChain := <[chainId := coinType]> (ks_coinTypeForChain ks);
     ks_bip44HDPath := ks_bip44HDPath ks |}.

(** Modelled from the spec: [setKeyStoreCoinType(chainId, coinType)] of §4.4
    (keyring.ts is outside the sources): set-once per record and chain; it
    fails if the selected record already holds an override for the chain. *)
Definition setKeyStoreCoinType (chainId : string) (coinType : nat)
    (kr : KeyRing) : Res KeyRing :=
  match keyStore kr with
  | None => Throw NoKeyError
  | Some ks =>
      if bool_decide (is_Some (ks_coinTypeForChain ks !! chainId))
      then Throw CoinTypeAlreadySetError
      else Ok {| loaded := loaded kr;
                 multiKeyStore := <[selected kr := withCoinType ks chainId coinType]>
                                    (multiKeyStore kr);
                 selected := selected kr;
                 unlocked := unlocked kr |}
  end.

(** Modelled from the spec: the selection after the record at [index] is
    removed.  Deleting the selected record re-selects index 0 (§3); for any
    other record the spec only asks that the selected index keeps referring
    to an existing record, and the selection stays on the record it was on. *)
Definition reselect (index sel : nat) : nat :=
  if Nat.eqb index sel then 0
  else if Nat.ltb index sel then sel - 1
  else sel.

(** Modelled from the spec: [delete(index, password)] of §4.3 and the
    MultiKeyStore invariant of §3 (keyring.ts is outside the sources).
    Deleting requires the password to open the record (WrongPassword
    otherwise) and an existing index (IndexOutOfRange otherwise); deleting the
    selected record re-selects index 0 or leaves the ring empty. *)
Definition deleteKeyRing (index : nat) (password : string) (kr : KeyRing) : Res KeyRing :=
  match multiKeyStore kr !! index with
  | None => Throw IndexOutOfRange
  | Some ks =>
      if decryptOk ks password
      then
        let rest := delete index (multiKeyStore kr) in
        Ok {| loaded := loaded kr;
              multiKeyStore := rest;
              selected := reselect index (selected kr);
              unlocked := match rest with [] => false | _ :: _ => unlocked kr end |}
      else Throw WrongPassword
  end.

End Operations.

End Keyring.

(** ** The background process: collaborators of the service *)

Module Background.
Import Keyring.

(** [ChainInfo] of the chain registry (§6): the account-address prefix of its
    [bech32Config], the default coin type of its [bip44], its features. *)
Record ChainInfo : Type := {
  chainId : string;
  bech32PrefixAccAddr : string;
  bip44_coinType : nat;
  features : list string;
}.

(** The router's environment of a message. *)
Record Env : Type := {
  extensionBaseURL : string;
}.

(** The tags [EnableKeyRingMsg.type()], [RequestTxBuilderConfigMsg.type()] and
    [RequestSignMsg.type()], kept symbolic (messages.ts is outside the
    sources). *)
Inductive MsgType : Type :=
| EnableKeyRingMsg_type
| RequestTxBuilderConfigMsg_type
| RequestSignMsg_type.

(** A request handed to [interactionService.waitApprove(env, uri, type, data)];
    while the caller is suspended on it, it is the Pending request of §3. *)
Record Interaction : Type := {
  i_env : Env;
  i_uri : string;
  i_type : MsgType;
  i_data : JsValue;
}.

(** Calls that leave the service, in the order they were made. *)
Inductive Event : Type :=
| EvWaitApprove (i : Interaction)
| EvSign (chainId : string) (coinType : nat) (message : bytes).

(** Everything the background process shares between calls: the key ring, the
    persisted key stores, the chain registry, the permission table and the
    log of calls made so far. *)
Record World : Type := {
  keyRing : KeyRing;
  kvStore : list KeyStore * nat;
  chains : gmap string ChainInfo;
  isAllowed : string -> string -> bool;
  trace : list Event;
}.

Definition setKeyRing (kr : KeyRing) (w : World) : World :=
  {| keyRing := kr; kvStore := kvStore w; chains := chains w;
     isAllowed := isAllowed w; trace := trace w |}.

Definition setKvStore (p : list KeyStore * nat) (w : World) : World :=
  {| keyRing := keyRing w; kvStore := p; chains := chains w;
     isAllowed := isAllowed w; trace := trace w |}.

Definition addEvent (e : Event) (w : World) : World :=
  {| keyRing := keyRing w; kvStore := kvStore w; chains := chains w;
     isAllowed := isAllowed w; trace := trace w ++ [e] |}.

(** The Pending requests recorded so far. *)
Definition pendingRequests (w : World) : list Interaction :=
  omap (fun e => match e with EvWaitApprove i => Some i | EvSign _ _ _ => None end)
       (trace w).

(** The signing steps reached so far. *)
Definition signingSteps (w : World) : list (string * nat * bytes) :=
  omap (fun e => match e with
                 | EvSign c t m => Some (c, t, m)
                 | EvWaitApprove _ => None
                 end)
       (trace w).

(** Library code outside the sources and the user behind the interaction
    pages.  [toBech32 a p] is [new Bech32Address(a).toBech32(p)];
    [bytesToHex b] is [Buffer.from(b).toString("hex")] and [hexToBytes] its
    inverse [Buffer.from(s, "hex")]; [userDecision i kr] is how the Pending
    request [i] gets resolved when the key ring is [kr]: approved with a
    payload, leaving the key ring as the interaction page left it (the unlock
    page unlocks it), or rejected. *)
Class Collaborators : Type := {
  toBech32 : bytes -> string -> string;
  bytesToHex : bytes -> string;
  hexToBytes : string -> bytes;
  userDecision : Interaction -> KeyRing -> Res (JsValue * KeyRing);
}.

Section Services.
Context `{KeySource} `{Collaborators}.

(** Modelled from the spec: [chainsService.getChainInfo] of §6; fails if the
    chain is unknown. *)
Definition getChainInfo (chainId : string) : M World ChainInfo :=
  fun w =>
    match chains w !! chainId with
    | Some ci => (Ok ci, w)
    | None => (Throw ChainUnknownError, w)
    end.

(** Modelled from the spec: [chainsService.getChainCoinType], the default
    coin type of the chain (§6). *)
Definition getChainCoinType (chainId : string) : M World nat :=
  let! ci := getChainInfo chainId in
  ret (bip44_coinType ci).

(** Modelled from the spec: [interactionService.waitApprove] of §4.5 and §6.
    The request is recorded as Pending, the caller is suspended, and the call
    resumes with the resolved payload or fails when the user rejects. *)
Definition waitApprove (env : Env) (uri : string) (type : MsgType)
    (data : JsValue) : M World JsValue :=
  fun w =>
    let i := {| i_env := env; i_uri := uri; i_type := type; i_data := data |} in
    let w1 := addEvent (EvWaitApprove i) w in
    match userDecision i (keyRing w) with
    | Ok (v, kr') => (Ok v, setKeyRing kr' w1)
    | Throw e => (Throw e, w1)
    end.

(** Modelled from the spec: the origin-permission check of §4.5 and §6
    ([checkAccessOrigin] of the keeper is outside the sources): it throws
    unless the origin is allowed to request the chain. *)
Definition checkAccessOrigin (extensionBaseURL chainId origin : string) : M World unit :=
  fun w =>
    if isAllowed w origin chainId then (Ok tt, w)
    else (Throw OriginNotAllowedError, w).

(** Calls of [this.keyRing]: the key ring's transitions run on the shared
    key ring; every mutating one persists the updated collection. *)
Definition keyRing_status : M World KeyRingStatus :=
  gets (fun w => status (keyRing w)).

Definition keyRing_read {A} (f : KeyRing -> Res A) : M World A :=
  fun w => (f (keyRing w), w).

Definition keyRing_update (f : KeyRing -> Res KeyRing) : M World unit :=
  fun w =>
    match f (keyRing w) with
    | Ok kr' => (Ok tt, setKvStore (multiKeyStore kr', selected kr') (setKeyRing kr' w))
    | Throw e => (Throw e, w)
    end.

Definition keyRing_restore : M World unit :=
  modify (fun w => setKeyRing (restore (kvStore w) (keyRing w)) w).

Definition keyRing_sign (env : Env) (chainId : string) (defaultCoinType : nat)
    (message : bytes) : M World bytes :=
  fun w =>
    (sign chainId defaultCoinType message (keyRing w),
     addEvent (EvSign chainId defaultCoinType message) w).

End Services.

End Background.

(** ** [KeyRingService] (service.ts) *)

Module Service.
Import Keyring Background.

(** [BIP44] of the chain types: a candidate derivation subtree. *)
Record BIP44 : Type := {
  coinType : nat;
}.

Section Methods.
Context `{KeySource} `{Collaborators}.

(** [async restore()] *)
Definition restore : M World (KeyRingStatus * MultiKeyStoreInfoWithSelected) :=
  keyRing_restore ;;;
  let! st := keyRing_status in
  let! info := gets (fun w => getMultiKeyStoreInfo (keyRing w)) in
  ret (st, info).

(** [async enable(env)] *)
Definition enable (env : Env) : M World KeyRingStatus :=
  let! st := keyRing_status in
  if KeyRingStatus_eqb st EMPTY then throw (JsError "key doesn't exist")
  else
    (if KeyRingStatus_eqb st NOTLOADED then keyRing_restore else ret tt) ;;;
    let! st' := keyRing_status in
    if KeyRingStatus_eqb st' LOCKED then
      waitApprove env "/unlock" EnableKeyRingMsg_type JEmptyObject ;;;
      keyRing_status
    else keyRing_status.

(** [get keyRingStatus()] *)
Definition keyRingStatus : M World KeyRingStatus := keyRing_status.

(** [async getKey(chainId)] *)
Definition getKey (chainId : string) : M World Key :=
  let! defaultCoinType := getChainCoinType chainId in
  keyRing_read (Keyring.getKey chainId defaultCoinType).

(** [async checkBech32Address(chainId, bech32Address)] *)
Definition checkBech32Address (chainId bech32Address : string) : M World unit :=
  let! key := getKey chainId in
  let! chainInfo := getChainInfo chainId in
  if negb (String.eqb bech32Address
             (toBech32 (address key) (bech32PrefixAccAddr chainInfo)))
  then throw (JsError "Invalid bech32 address")
  else ret tt.

(** [async deleteKeyRing(index, password)] *)
Definition deleteKeyRing (index : nat) (password : string)
    : M World (MultiKeyStoreInfoWithSelected * KeyRingStatus) :=
  keyRing_update (Keyring.deleteKeyRing index password) ;;;
  let! multiKeyStoreInfo := gets (fun w => getMultiKeyStoreInfo (keyRing w)) in
  let! st := keyRing_status in
  ret (multiKeyStoreInfo, st).

(** [lock()] *)
Definition lock : M World KeyRingStatus :=
  modify (fun w => setKeyRing (Keyring.lock (keyRing w)) w) ;;;
  keyRing_status.

(** [async unlock(password)] *)
Definition unlock (password : string) : M World KeyRingStatus :=
  (fun w => match Keyring.unlock password (keyRing w) with
            | Ok kr' => (Ok tt, setKeyRing kr' w)
            | Throw e => (Throw e, w)
            end) ;;;
  keyRing_status.

(** [async requestTxBuilderConfig(env, config, skipApprove)] *)
Definition requestTxBuilderConfig (env : Env)
    (config : TxBuilderConfigPrimitiveWithChainId) (skipApprove : bool)
    : M World JsValue :=
  if skipApprove then ret (JConfig config)
  else
    let! result := waitApprove env "/fee" RequestTxBuilderConfigMsg_type (JConfig config) in
    if negb (truthy result)
    then throw (JsError "config is approved, but result config is null")
    else ret result.

(** [async sign(env, chainId, message)] *)
Definition sign (env : Env) (chainId : string) (message : bytes) : M World bytes :=
  let! defaultCoinType := getChainCoinType chainId in
  keyRing_sign env chainId defaultCoinType message.

(** [async requestSign(env, chainId, message, skipApprove)] *)
Definition requestSign (env : Env) (chainId : string) (message : bytes)
    (skipApprove : bool) : M World bytes :=
  if skipApprove then
    let! defaultCoinType := getChainCoinType chainId in
    keyRing_sign env chainId defaultCoinType message
  else
    waitApprove env "/sign" RequestSignMsg_type
      (JSignRequest chainId (bytesToHex message)) ;;;
    let! defaultCoinType := getChainCoinType chainId in
    keyRing_sign env chainId defaultCoinType message.

(** [getMultiKeyStoreInfo()] *)
Definition getMultiKeyStoreInfo : M World MultiKeyStoreInfoWithSelected :=
  gets (fun w => Keyring.getMultiKeyStoreInfo (keyRing w)).

(** [isKeyStoreCoinTypeSet(chainId)] *)
Definition isKeyStoreCoinTypeSet (chainId : string) : M World bool :=
  gets (fun w => Keyring.isKeyStoreCoinTypeSet chainId (keyRing w)).

(** [async setKeyStoreCoinType(chainId, coinType)] *)
Definition setKeyStoreCoinType (chainId : string) (coinType : nat) : M World unit :=
  keyRing_update (Keyring.setKeyStoreCoinType chainId coinType).

(** [async getKeyStoreBIP44Selectables(chainId, paths)] *)
Definition getKeyStoreBIP44Selectables (chainId : string) (paths : list BIP44)
    : M World (list (BIP44 * string)) :=
  let! isSet := isKeyStoreCoinTypeSet chainId in
  if isSet then ret []
  else
    let! chainInfo := getChainInfo chainId in
    forEachPush
      (fun path =>
         let! key := keyRing_read (getKeyFromCoinType (coinType path)) in
         let bech32Address :=
           toBech32 (address key) (bech32PrefixAccAddr chainInfo) in
         ret (path, bech32Address))
      paths.

End Methods.

(** The error names of §7 for what the service throws. *)
Definition NoKey : Error := JsError "key doesn't exist".
Definition AddressMismatchError : Error := JsError "Invalid bech32 address".
Definition NullConfigError : Error :=
  JsError "config is approved, but result config is null".

End Service.

(** ** The message handlers of the key ring (handler.ts) *)

Module Handler.
Import Keyring Background.

(** The keeper the handlers are closed over, by the methods they call. *)
Record KeyRingKeeper : Type := {
  k_checkAccessOrigin : string -> string -> string -> M World unit;
  k_getChainInfo : string -> M World ChainInfo;
  k_enable : string -> M World KeyRingStatus;
  k_checkBech32Address : string -> string -> M World unit;
  k_requestTxBuilderConfig :
    string -> TxBuilderConfigPrimitiveWithChainId -> string -> bool -> bool ->
    M World JsValue;
  k_requestSign :
    string -> string -> bytes -> string -> bool -> bool -> M World bytes;
}.

Record EnableKeyRingMsg : Type := {
  enable_chainId : string;
  enable_origin : string;
}.

Record RequestTxBuilderConfigMsg : Type := {
  txc_config : TxBuilderConfigPrimitiveWithChainId;
  txc_id : string;
  txc_openPopup : bool;
  txc_skipApprove : bool;
  txc_origin : string;
}.

Record RequestSignMsg : Type := {
  sign_chainId : string;
  sign_id : string;
  sign_bech32Address : string;
  sign_messageHex : string;
  sign_openPopup : bool;
  sign_skipApprove : bool;
  sign_origin : string;
}.

Section Handlers.
Context `{KeySource} `{Collaborators}.

(** [handleEnableKeyRingMsg] *)
Definition handleEnableKeyRingMsg (keeper : KeyRingKeeper) (env : Env)
    (msg : EnableKeyRingMsg) : M World KeyRingStatus :=
  k_checkAccessOrigin keeper (extensionBaseURL env) (enable_chainId msg)
    (enable_origin msg) ;;;
  k_getChainInfo keeper (enable_chainId msg) ;;;
  let! st := k_enable keeper (extensionBaseURL env) in
  ret st.

(** [handleRequestTxBuilderConfigMsg] *)
Definition handleRequestTxBuilderConfigMsg (keeper : KeyRingKeeper) (env : Env)
    (msg : RequestTxBuilderConfigMsg) : M World JsValue :=
  k_checkAccessOrigin keeper (extensionBaseURL env)
    (cfg_chainId (txc_config msg)) (txc_origin msg) ;;;
  let! config :=
    k_requestTxBuilderConfig keeper (extensionBaseURL env) (txc_config msg)
      (txc_id msg) (txc_openPopup msg) (txc_skipApprove msg) in
  ret config.

(** [handleRequestSignMsg]; the result is the [signatureHex] field. *)
Definition handleRequestSignMsg (keeper : KeyRingKeeper) (env : Env)
    (msg : RequestSignMsg) : M World string :=
  k_checkAccessOrigin keeper (extensionBaseURL env) (sign_chainId msg)
    (sign_origin msg) ;;;
  k_checkBech32Address keeper (sign_chainId msg) (sign_bech32Address msg) ;;;
  let! signature :=
    k_requestSign keeper (extensionBaseURL env) (sign_chainId msg)
      (hexToBytes (sign_messageHex msg)) (sign_id msg) (sign_openPopup msg)
      (sign_skipApprove msg) in
  ret (bytesToHex signature).

(** The keeper the background process registers: the methods of the key-ring
    service, the permission check and the chain registry.  The request id and
    the popup flag travel with the message; the service's methods do not take
    them. *)
Definition keeper : KeyRingKeeper :=
  {| k_checkAccessOrigin := checkAccessOrigin;
     k_getChainInfo := getChainInfo;
     k_enable := fun url => Service.enable {| extensionBaseURL := url |};
     k_checkBech32Address := Service.checkBech32Address;
     k_requestTxBuilderConfig := fun url config _ _ skipApprove =>
       Service.requestTxBuilderConfig {| extensionBaseURL := url |} config skipApprove;
     k_requestSign := fun url chainId message _ _ skipApprove =>
       Service.requestSign {| extensionBaseURL := url |} chainId message skipApprove |}.

End Handlers.

End Handler.

(** ** [FeeConfig] (hooks/src/tx) *)

Module Fee.

(** [type FeeType = "high" | "average" | "low"] *)
Inductive FeeType : Type := high | average | low.

Record Currency : Type := {
  coinDenom : string;
  coinMinimalDenom : string;
  coinDecimals : nat;
}.

Record CoinPrimitive : Type := {
  denom : string;
  amount : string;
}.

(** Gas prices per fee type.  JavaScript numbers are taken as the decimal
    fractions their literals denote. *)
Record GasPriceStep : Type := {
  step_low : Q;
  step_average : Q;
  step_high : Q;
}.

Definition DefaultGasPriceStep : GasPriceStep :=
  {| step_low := 1 # 100; step_average := 25 # 1000; step_high := 4 # 100 |}.

(** [gasPriceStep[feeType]] *)
Definition stepOf (s : GasPriceStep) (feeType : FeeType) : Q :=
  match feeType with
  | high => step_high s
  | average => step_average s
  | low => step_low s
  end.

(** The part of the chain's [ChainInfo] the fee configuration reads. *)
Record ChainInfo : Type := {
  feeCurrencies : list Currency;
  gasPriceStep : option GasPriceStep;
}.

Record StdFee : Type := {
  fee_gas : string;
  fee_amount : list CoinPrimitive;
}.

(** The fixed-point decimals of the unit package are outside the sources.
    [decMulTruncate p g] is
    [new Dec(p.toString()).mul(new Dec(g)).truncate().toString()], which may
    throw on a number whose string is no plain decimal; [numberToString] is
    [Number.prototype.toString]. *)
Class DecArith : Type := {
  decMulTruncate : Q -> Q -> Res string;
  numberToString : Q -> string;
}.

(** The observable fields of a [FeeConfig], the chain information its
    [TxChainSetter] base resolves, and the gas of its [gasConfig]. *)
Record FeeConfig : Type := {
  chainInfo : ChainInfo;
  gasConfig_gas : Q;
  gasConfig_error : option Error;
  _feeType : option FeeType;
  _manualFee : option CoinPrimitive;
}.

(** The constructor leaves both observable fields undefined. *)
Definition new (ci : ChainInfo) (gas : Q) : FeeConfig :=
  {| chainInfo := ci; gasConfig_gas := gas; gasConfig_error := None;
     _feeType := None; _manualFee := None |}.

(** [setFeeType(feeType)] *)
Definition setFeeType (feeType : option FeeType) (c : FeeConfig) : FeeConfig :=
  {| chainInfo := chainInfo c; gasConfig_gas := gasConfig_gas c;
     gasConfig_error := gasConfig_error c;
     _feeType := feeType; _manualFee := None |}.

(** [get feeType()] *)
Definition feeType (c : FeeConfig) : option FeeType := _feeType c.

(** [setManualFee(fee)] *)
Definition setManualFee (fee : CoinPrimitive) (c : FeeConfig) : FeeConfig :=
  {| chainInfo := chainInfo c; gasConfig_gas := gasConfig_gas c;
     gasConfig_error := gasConfig_error c;
     _feeType := None; _manualFee := Some fee |}.

(** [setChain(chainId)] of the base class, by the chain information the new
    chain resolves to, and a change of the gas configuration. *)
Definition setChain (ci : ChainInfo) (c : FeeConfig) : FeeConfig :=
  {| chainInfo := ci; gasConfig_gas := gasConfig_gas c;
     gasConfig_error := gasConfig_error c;
     _feeType := _feeType c; _manualFee := _manualFee c |}.

Definition setGas (gas : Q) (c : FeeConfig) : FeeConfig :=
  {| chainInfo := chainInfo c; gasConfig_gas := gas;
     gasConfig_error := gasConfig_error c;
     _feeType := _feeType c; _manualFee := _manualFee c |}.

(** [get feeCurrencies()] *)
Definition getFeeCurrencies (c : FeeConfig) : list Currency :=
  feeCurrencies (chainInfo c).

(** [get feeCurrency()]: [this.chainInfo.feeCurrencies[0]] *)
Definition feeCurrency (c : FeeConfig) : option Currency :=
  feeCurrencies (chainInfo c) !! 0.

Section Methods.
Context `{DecArith}.

(** [getFeeTypePrimitive(feeType)] *)
Definition getFeeTypePrimitive (c : FeeConfig) (feeType : FeeType) : Res CoinPrimitive :=
  match feeCurrency c with
  | None => Throw (JsError "Fee currency not set")
  | Some cur =>
      let gasPriceStep :=
        match gasPriceStep (chainInfo c) with
        | Some s => s
        | None => DefaultGasPriceStep
        end in
      match decMulTruncate (stepOf gasPriceStep feeType) (gasConfig_gas c) with
      | Ok feeAmount => Ok {| denom := coinMinimalDenom cur; amount := feeAmount |}
      | Throw e => Throw e
      end
  end.

(** [getFeePrimitive()] *)
Definition getFeePrimitive (c : FeeConfig) : Res (option CoinPrimitive) :=
  match feeCurrency c with
  | None => Ok None
  | Some _ =>
      match _manualFee c with
      | Some fee => Ok (Some fee)
      | None =>
          match feeType c with
          | Some t =>
              match getFeeTypePrimitive c t with
              | Ok p => Ok (Some p)
              | Throw e => Throw e
              end
          | None => Ok None
          end
      end
  end.

(** [toStdFee()] *)
Definition toStdFee (c : FeeConfig) : Res StdFee :=
  match getFeePrimitive c with
  | Throw e => Throw e
  | Ok None =>
      Ok {| fee_gas := numberToString (gasConfig_gas c); fee_amount := [] |}
  | Ok (Some amount) =>
      Ok {| fee_gas := numberToString (gasConfig_gas c); fee_amount := [amount] |}
  end.

(** [getError()] *)
Definition getError (c : FeeConfig) : option Error := gasConfig_error c.

End Methods.

(** The calls that change a fee configuration. *)
Inductive Op : Type :=
| OpSetFeeType (feeType : option FeeType)
| OpSetManualFee (fee : CoinPrimitive)
| OpSetChain (ci : ChainInfo)
| OpSetGas (gas : Q).

Definition step (c : FeeConfig) (op : Op) : FeeConfig :=
  match op with
  | OpSetFeeType t => setFeeType t c
  | OpSetManualFee fee => setManualFee fee c
  | OpSetChain ci => setChain ci c
  | OpSetGas g => setGas g c
  end.

Definition run (ops : list Op) (c : FeeConfig) : FeeConfig :=
  fold_left step ops c.

(** At most one of the fee type and the manual fee is defined. *)
Definition atMostOne (c : FeeConfig) : Prop :=
  _feeType c = None \/ _manualFee c = None.

End Fee.

(** ** [AccountStoreInner] (stores/src/account/index.ts) *)

Module Account.

Inductive WalletStatus : Type := Loading | Loaded | NotExist.

(** The enum's string values, as the template literal prints them. *)
Definition WalletStatus_toString (s : WalletStatus) : string :=
  match s with
  | Loading => "Loading"
  | Loaded => "Loaded"
  | NotExist => "NotExist"
  end.

Definition WalletStatus_eqb (a b : WalletStatus) : bool :=
  match a, b with
  | Loading, Loading | Loaded, Loaded | NotExist, NotExist => true
  | _, _ => false
  end.

(** [keyof MsgOpts | "unknown"] *)
Inductive MsgKind : Type :=
| send | delegate | undelegate | redelegate | withdrawRewards | govVote
| createSecret20ViewingKey | executeSecretWasm | unknown.

Inductive BroadcastMode : Type := block | async | sync.

(** The launchpad's [Msg], [Coin], [StdFee], sign document and signed
    transaction; a message's value is opaque to the store. *)
Record Msg : Type := {
  msg_type : string;
  msg_value : string;
}.

Record Coin : Type := {
  coin_denom : string;
  coin_amount : string;
}.

Record StdFee : Type := {
  fee_amount : list Coin;
  fee_gas : string;
}.

Record StdSignDoc : Type := {
  doc_chain_id : string;
  doc_account_number : string;
  doc_sequence : string;
  doc_fee : StdFee;
  doc_msgs : list Msg;
  doc_memo : string;
}.

Record StdTx : Type := {
  tx_msg : list Msg;
  tx_fee : StdFee;
  tx_signatures : list string;
  tx_memo : string;
}.

Record SignResponse : Type := {
  signed : StdSignDoc;
  signature : string;
}.

(** [makeSignDoc(msgs, fee, chainId, memo, accountNumber, sequence)] *)
Definition makeSignDoc (msgs : list Msg) (fee : StdFee) (chainId memo : string)
    (accountNumber sequence : string) : StdSignDoc :=
  {| doc_chain_id := chainId; doc_account_number := accountNumber;
     doc_sequence := sequence; doc_fee := fee; doc_msgs := msgs;
     doc_memo := memo |}.

(** [makeStdTx(signed, signature)] *)
Definition makeStdTx (content : StdSignDoc) (sig : string) : StdTx :=
  {| tx_msg := doc_msgs content; tx_fee := doc_fee content;
     tx_signatures := [sig]; tx_memo := doc_memo content |}.

(** The account the REST endpoint reports, by the strings of its number and
    sequence. *)
Record BaseAccount : Type := {
  accountNumber : string;
  sequence : string;
}.

(** What leaves the store while it broadcasts, in order. *)
Inductive Call : Type :=
| CallFetchAccount (rest bech32Address : string)
| CallMakeSignDoc (doc : StdSignDoc)
| CallSign (chainId bech32Address : string) (doc : StdSignDoc)
| CallMakeStdTx (tx : StdTx)
| CallSendTx (chainId : string) (tx : StdTx) (mode : BroadcastMode)
| CallTraceTx (rpc : string) (txHash : bytes).

(** The observable fields of the store, the resolved REST and RPC endpoints
    of its chain, and the calls it has made. *)
Record AccountStoreInner : Type := {
  chainId : string;
  rest : string;
  rpc : string;
  _walletStatus : WalletStatus;
  _name : string;
  _bech32Address : string;
  _isSendingMsg : option MsgKind;
  broadcastMode : BroadcastMode;
  calls : list Call;
}.

Definition walletStatus (s : AccountStoreInner) : WalletStatus := _walletStatus s.
Definition bech32Address (s : AccountStoreInner) : string := _bech32Address s.
Definition isSendingMsg (s : AccountStoreInner) : option MsgKind := _isSendingMsg s.

(** [get isReadyToSendMsgs()] *)
Definition isReadyToSendMsgs (s : AccountStoreInner) : bool :=
  WalletStatus_eqb (walletStatus s) Loaded && negb (String.eqb (bech32Address s) "").

Definition setIsSendingMsg (v : option MsgKind) (s : AccountStoreInner) : AccountStoreInner :=
  {| chainId := chainId s; rest := rest s; rpc := rpc s;
     _walletStatus := _walletStatus s; _name := _name s;
     _bech32Address := _bech32Address s; _isSendingMsg := v;
     broadcastMode := broadcastMode s; calls := calls s |}.

Definition addCall (c : Call) (s : AccountStoreInner) : AccountStoreInner :=
  {| chainId := chainId s; rest := rest s; rpc := rpc s;
     _walletStatus := _walletStatus s; _name := _name s;
     _bech32Address := _bech32Address s; _isSendingMsg := _isSendingMsg s;
     broadcastMode := broadcastMode s; calls := calls s ++ [c] |}.

(** The network and the wallet extension: [fetchFromRest] is
    [BaseAccount.fetchFromRest], [keplrPresent] whether [window.keplr] is
    there, [keplrSign] and [keplrSendTx] its [sign] and [sendTx]. *)
Class Remote : Type := {
  fetchFromRest : string -> string -> Res BaseAccount;
  keplrPresent : bool;
  keplrSign : string -> string -> StdSignDoc -> Res SignResponse;
  keplrSendTx : string -> StdTx -> BroadcastMode -> Res bytes;
}.

Section Methods.
Context `{Remote}.

(** A call of a collaborator: logged, then answered. *)
Definition call {A} (c : Call) (r : Res A) : M AccountStoreInner A :=
  fun s => (r, addCall c s).

(** Using [window.keplr] under the non-null assertion. *)
Definition withKeplr {A} (m : M AccountStoreInner A) : M AccountStoreInner A :=
  if keplrPresent then m
  else throw (TypeError "Cannot read properties of undefined").

(** [broadcastMsgs(msgs, fee, memo, mode)] *)
Definition broadcastMsgs (msgs : list Msg) (fee : StdFee) (memo : string)
    (mode : BroadcastMode) : M AccountStoreInner bytes :=
  let! this := get in
  if negb (WalletStatus_eqb (walletStatus this) Loaded) then
    throw (JsError ("Wallet is not loaded: " ++ WalletStatus_toString (walletStatus this)))
  else if Nat.eqb (length msgs) 0 then
    throw (JsError "There is no msg to send")
  else
    let! account :=
      call (CallFetchAccount (rest this) (bech32Address this))
           (fetchFromRest (rest this) (bech32Address this)) in
    let signDoc :=
      makeSignDoc msgs fee (chainId this) memo (accountNumber account)
        (sequence account) in
    modify (addCall (CallMakeSignDoc signDoc)) ;;;
    let! signResponse :=
      withKeplr
        (call (CallSign (chainId this) (bech32Address this) signDoc)
              (keplrSign (chainId this) (bech32Address this) signDoc)) in
    let signedTx := makeStdTx (signed signResponse) (signature signResponse) in
    modify (addCall (CallMakeStdTx signedTx)) ;;;
    withKeplr
      (call (CallSendTx (chainId this) signedTx mode)
            (keplrSendTx (chainId this) signedTx mode)).

(** [sendMsgs(type, msgs, fee, memo, onFulfill)], up to the point where the
    transaction tracer is started; the tracer's callback is [onTraced]. *)
Definition sendMsgs (type : MsgKind) (msgs : list Msg) (fee : StdFee)
    (memo : string) : M AccountStoreInner unit :=
  modify (setIsSendingMsg (Some type)) ;;;
  let! txHash :=
    tryCatch
      (let! this := get in
       broadcastMsgs msgs fee memo (broadcastMode this))
      (fun e =>
         modify (setIsSendingMsg None) ;;;
         throw e) in
  let! this := get in
  modify (addCall (CallTraceTx (rpc this) txHash)).

(** The callback of [txTracer.traceTx(txHash).then(...)]: the flag is
    cleared once the transaction is traced. *)
Definition onTraced : M AccountStoreInner unit :=
  modify (setIsSendingMsg None).

End Methods.

End Account.

(** ** Concrete collaborators and states for the examples *)

Module Fixture.
Import Keyring Background.

(** Stand-ins for the key sources: the key of a record is read off its
    ciphertext and the coin type, the password is "pw1". *)
#[export] Instance keySource : KeySource :=
  {| deriveKey := fun ks coinType =>
       {| algo := "secp256k1";
          pubKey := ks_ciphertext ks;
          address := ks_ciphertext ks ++ repeat x01 coinType |};
     signWith := fun ks coinType message => Ok (ks_ciphertext ks ++ message);
     decryptOk := fun _ password => String.eqb password "pw1" |}.

(** A user who approves every request with the payload it came with and
    unlocks the ring when asked to. *)
Definition approving : Collaborators :=
  {| toBech32 := fun a prefix => (prefix ++ "1" ++ string_of_list_byte a)%string;
     bytesToHex := string_of_list_byte;
     hexToBytes := list_byte_of_string;
     userDecision := fun i kr =>
       match i_type i with
       | EnableKeyRingMsg_type =>
           Ok (JEmptyObject,
               {| loaded := loaded kr; multiKeyStore := multiKeyStore kr;
                  selected := selected kr; unlocked := true |})
       | _ => Ok (i_data i, kr)
       end |}.

(** A user who edits the fee of every config before approving it. *)
Definition editing : Collaborators :=
  {| toBech32 := fun a prefix => (prefix ++ "1" ++ string_of_list_byte a)%string;
     bytesToHex := string_of_list_byte;
     hexToBytes := list_byte_of_string;
     userDecision := fun i kr =>
       match i_data i with
       | JConfig c =>
           Ok (JConfig {| cfg_chainId := cfg_chainId c; cfg_gas := cfg_gas c;
                          cfg_memo := cfg_memo c; cfg_fee := "5000uatom" |}, kr)
       | v => Ok (v, kr)
       end |}.

(** An interaction page that resolves every request with [null]. *)
Definition resolvingNull : Collaborators :=
  {| toBech32 := fun a prefix => (prefix ++ "1" ++ string_of_list_byte a)%string;
     bytesToHex := string_of_list_byte;
     hexToBytes := list_byte_of_string;
     userDecision := fun _ kr => Ok (JNull, kr) |}.

Definition path0 : BIP44HDPath :=
  {| hd_account := 0; hd_change := 0; hd_addressIndex := 0 |}.

Definition storeA : KeyStore :=
  {| ks_type := MnemonicKey; ks_ciphertext := [x61]; ks_meta := ∅;
     ks_coinTypeForChain := ∅; ks_bip44HDPath := path0 |}.

Definition storeB : KeyStore :=
  {| ks_type := PrivateKey; ks_ciphertext := [x62]; ks_meta := ∅;
     ks_coinTypeForChain := {[ "cosmoshub-4" := 118 ]}; ks_bip44HDPath := path0 |}.

Definition cosmoshub : ChainInfo :=
  {| chainId := "cosmoshub-4"; bech32PrefixAccAddr := "cosmos";
     bip44_coinType := 2; features := [] |}.

Definition registry : gmap string ChainInfo := {[ "cosmoshub-4" := cosmoshub ]}.

Definition dapp : string := "https://app.example".

Definition onlyDapp (origin chain : string) : bool :=
  String.eqb origin dapp && String.eqb chain "cosmoshub-4".

Definition ringOf (l : list KeyStore) (sel : nat) (u : bool) : KeyRing :=
  {| loaded := true; multiKeyStore := l; selected := sel; unlocked := u |}.

Definition worldOf (kr : KeyRing) : World :=
  {| keyRing := kr; kvStore := (multiKeyStore kr, selected kr);
     chains := registry; isAllowed := onlyDapp; trace := [] |}.

(** A fresh process with nothing persisted. *)
Definition freshWorld : World :=
  {| keyRing := Keyring.initial; kvStore := ([], 0);
     chains := registry; isAllowed := onlyDapp; trace := [] |}.

(** One unlocked record without overrides. *)
Definition unlockedWorld : World := worldOf (ringOf [storeA] 0 true).

(** Two unlocked records, the second one selected. *)
Definition twoStores : World := worldOf (ringOf [storeA; storeB] 1 true).

Definition env0 : Env := {| extensionBaseURL := "chrome-extension://wallet" |}.

(** A request-sign message of [origin] for an address that is not the active
    key's. *)
Definition signMsgWrongAddress (origin : string) : Handler.RequestSignMsg :=
  {| Handler.sign_chainId := "cosmoshub-4"; Handler.sign_id := "1";
     Handler.sign_bech32Address := "cosmos1wrong";
     Handler.sign_messageHex := "00"; Handler.sign_openPopup := false;
     Handler.sign_skipApprove := true; Handler.sign_origin := origin |}.

Definition config0 : TxBuilderConfigPrimitiveWithChainId :=
  {| cfg_chainId := "cosmoshub-4"; cfg_gas := "80000"; cfg_memo := "";
     cfg_fee := "2000uatom" |}.

(** A request-tx-config message of [origin]. *)
Definition configMsg (origin : string) (skipApprove : bool)
    : Handler.RequestTxBuilderConfigMsg :=
  {| Handler.txc_config := config0; Handler.txc_id := "2";
     Handler.txc_openPopup := true; Handler.txc_skipApprove := skipApprove;
     Handler.txc_origin := origin |}.

Definition config1 : TxBuilderConfigPrimitiveWithChainId :=
  {| cfg_chainId := "cosmoshub-4"; cfg_gas := "80000"; cfg_memo := "";
     cfg_fee := "5000uatom" |}.

(** Exact decimal arithmetic for the fee amounts of the examples: the
    product, truncated towards zero, in decimal. *)
Definition dec : Fee.DecArith :=
  {| Fee.decMulTruncate := fun p g =>
       let q := Qmult p g in
       Ok (pretty (Z.quot (Qnum q) (Z.pos (Qden q))));
     Fee.numberToString := fun g => pretty (Z.quot (Qnum g) (Z.pos (Qden g))) |}.

Definition uatom : Fee.Currency :=
  {| Fee.coinDenom := "ATOM"; Fee.coinMinimalDenom := "uatom"; Fee.coinDecimals := 6 |}.

Definition hubFees : Fee.ChainInfo :=
  {| Fee.feeCurrencies := [uatom]; Fee.gasPriceStep := None |}.

(** A chain that lists no fee currency. *)
Definition noFeeCurrency : Fee.ChainInfo :=
  {| Fee.feeCurrencies := []; Fee.gasPriceStep := None |}.

Definition manual : Fee.CoinPrimitive :=
  {| Fee.denom := "uatom"; Fee.amount := "1" |}.

(** The wallet and the network of the examples: every call succeeds. *)
Definition remote : Account.Remote :=
  {| Account.fetchFromRest := fun _ _ =>
       Ok {| Account.accountNumber := "7"; Account.sequence := "0" |};
     Account.keplrPresent := true;
     Account.keplrSign := fun _ _ doc =>
       Ok {| Account.signed := doc; Account.signature := "sig" |};
     Account.keplrSendTx := fun _ _ _ => Ok [x0a] |}.

(** A network whose broadcast is refused. *)
Definition failingRemote : Account.Remote :=
  {| Account.fetchFromRest := fun _ _ =>
       Ok {| Account.accountNumber := "7"; Account.sequence := "0" |};
     Account.keplrPresent := true;
     Account.keplrSign := fun _ _ doc =>
       Ok {| Account.signed := doc; Account.signature := "sig" |};
     Account.keplrSendTx := fun _ _ _ => Throw (ExternalError "broadcast failed") |}.

Definition account (st : Account.WalletStatus) : Account.AccountStoreInner :=
  {| Account.chainId := "cosmoshub-4"; Account.rest := "https://lcd.example";
     Account.rpc := "https://rpc.example"; Account._walletStatus := st;
     Account._name := "main"; Account._bech32Address := "cosmos1a";
     Account._isSendingMsg := None; Account.broadcastMode := Account.sync;
     Account.calls := [] |}.

Definition sendMsg : Account.Msg :=
  {| Account.msg_type := "cosmos-sdk/MsgSend"; Account.msg_value := "{}" |}.

Definition stdFee : Account.StdFee :=
  {| Account.fee_amount := []; Account.fee_gas := "80000" |}.

End Fixture.

(** ** The requests the service hands to the interaction service *)

Module Requests.
Import Keyring Background.

Section Requests.
Context `{Collaborators}.

(** The request [requestSign] hands to the interaction service. *)
Definition signRequest (env : Env) (chainId : string) (message : bytes) : Interaction :=
  {| i_env := env; i_uri := "/sign"; i_type := RequestSignMsg_type;
     i_data := JSignRequest chainId (bytesToHex message) |}.

(** The request [enable] hands to the interaction service. *)
Definition unlockRequest (env : Env) : Interaction :=
  {| i_env := env; i_uri := "/unlock"; i_type := EnableKeyRingMsg_type;
     i_data := JEmptyObject |}.

End Requests.

End Requests.

(** ** The get-key handler (handler.ts) *)

Module KeyHandler.
Import Keyring Background Handler.

Record GetKeyMsg : Type := {
  getKey_chainId : string;
  getKey_origin : string;
}.

(** The response of the get-key handler. *)
Record GetKeyResponse : Type := {
  res_name : string;
  res_algo : string;
  res_pubKeyHex : string;
  res_addressHex : string;
  res_bech32Address : string;
}.

(** The keeper's methods the get-key handler calls besides those of
    [KeyRingKeeper]. *)
Record KeyAccess : Type := {
  k_getKey : string -> M World Key;
  k_getKeyStoreMeta : string -> M World string;
}.

(** [new Address(a).toBech32(p)] of the cosmosjs package, the encoder the
    handler uses. *)
Class AddressCodec : Type := {
  addressToBech32 : bytes -> string -> string;
}.

Section GetKey.
Context `{KeySource} `{Collaborators} `{AddressCodec}.

(** [handleGetKeyMsg].  The fields of the response are evaluated in the order
    they are written: the name, the two hex strings, then the chain lookup
    for the prefix. *)
Definition handleGetKeyMsg (keeper : KeyRingKeeper) (access : KeyAccess)
    (env : Env) (msg : GetKeyMsg) : M World GetKeyResponse :=
  k_checkAccessOrigin keeper (extensionBaseURL env) (getKey_chainId msg)
    (getKey_origin msg) ;;;
  let! key := k_getKey access (getKey_chainId msg) in
  let! name := k_getKeyStoreMeta access "name" in
  let! chainInfo := k_getChainInfo keeper (getKey_chainId msg) in
  ret {| res_name := name;
         res_algo := "secp256k1";
         res_pubKeyHex := bytesToHex (pubKey key);
         res_addressHex := bytesToHex (address key);
         res_bech32Address :=
           addressToBech32 (address key) (bech32PrefixAccAddr chainInfo) |}.

(** Modelled from the spec: [getKeyStoreMeta(key)] of the key ring
    (keyring.ts is outside the sources): the entry of the selected record's
    metadata map (§3), the empty string when there is none. *)
Definition getKeyStoreMeta (key : string) : M World string :=
  gets (fun w =>
          match keyStore (keyRing w) with
          | Some ks => default "" (ks_meta ks !! key)
          | None => ""
          end).

(** The key access the background process registers: the service's. *)
Definition access : KeyAccess :=
  {| k_getKey := Service.getKey;
     k_getKeyStoreMeta := getKeyStoreMeta |}.

End GetKey.

End KeyHandler.

(** ** More of [FeeConfig]: which setter decides the fee *)

Module FeeChoice.
Import Fee.

(** What the setters of a sequence of calls leave chosen: the fee type and
    the manual fee after the last [setFeeType] or [setManualFee] of the
    sequence, [None] when there is no such call. *)
Fixpoint lastChoice (ops : list Op) : option (option FeeType * option CoinPrimitive) :=
  match ops with
  | [] => None
  | op :: rest =>
      match lastChoice rest with
      | Some choice => Some choice
      | None =>
          match op with
          | OpSetFeeType t => Some (t, None)
          | OpSetManualFee fee => Some (None, Some fee)
          | OpSetChain _ | OpSetGas _ => None
          end
      end
  end.

End FeeChoice.

(** ** More of [AccountStoreInner]: initialisation and message senders *)

Module Wallet.
Import Account.

(** What [keplr.getKey] answers, by the fields the store reads. *)
Record KeyInfo : Type := {
  key_name : string;
  key_bech32Address : string;
  key_pubKeyHex : string;
}.

(** The wallet extension's API used at initialisation and library code:
    [fromHex] of the encoding package throws on a string that is not hex;
    [numberToString] is [Number.prototype.toString] on the gas amounts;
    [toBase64 b] is [Buffer.from(b).toString("base64")]. *)
Class Keplr : Type := {
  experimentalSuggestChain : string -> Res unit;
  keplrEnable : string -> Res unit;
  keplrGetKey : string -> Res KeyInfo;
  fromHex : string -> Res bytes;
  numberToString : N -> string;
  toBase64 : bytes -> string;
}.

(** The secret-contract collaborators: [codeHashResponse a] is what
    [waitResponse()] of the code-hash query of contract [a] resolves to
    ([None] for [undefined], else the hash in [data.result]);
    [enigmaEncrypt chainId hash obj] is
    [keplr.getEnigmaUtils(chainId).encrypt(hash, obj)]. *)
Class SecretApi : Type := {
  codeHashResponse : string -> Res (option string);
  enigmaEncrypt : string -> string -> string -> Res bytes;
}.

(** Values of message objects.  A message's [msg_value] is opaque to the
    store; [valueOf] names the value object with the given fields, each a
    string, [null] or the empty array. *)
Inductive Field : Type :=
| FieldString (s : string)
| FieldNull
| FieldEmptyArray.

Class Values : Type := {
  valueOf : list (string * Field) -> string;
}.

(** [MsgOpt]: the type tag and the gas of a kind of message. *)
Record MsgOpt : Type := {
  opt_type : string;
  opt_gas : N;
}.

(** The store with the fields [AccountStoreInner] leaves out: the public
    key, the option read here, and whether [init] is registered on the
    window as the one-shot listener of the key-store-change event (the
    window keeps one registration of a listener, however often it is added). *)
Record Store : Type := {
  inner : AccountStoreInner;
  pubKey : bytes;
  opts_suggestChain : bool;
  keystoreListener : bool;
}.

Definition setInner (a : AccountStoreInner) (s : Store) : Store :=
  {| inner := a; pubKey := pubKey s; opts_suggestChain := opts_suggestChain s;
     keystoreListener := keystoreListener s |}.

Definition setPubKey (b : bytes) (s : Store) : Store :=
  {| inner := inner s; pubKey := b; opts_suggestChain := opts_suggestChain s;
     keystoreListener := keystoreListener s |}.

Definition addListener (s : Store) : Store :=
  {| inner := inner s; pubKey := pubKey s; opts_suggestChain := opts_suggestChain s;
     keystoreListener := true |}.

Definition setWalletStatus (v : WalletStatus) (a : AccountStoreInner) : AccountStoreInner :=
  {| chainId := chainId a; rest := rest a; rpc := rpc a;
     _walletStatus := v; _name := _name a;
     _bech32Address := _bech32Address a; _isSendingMsg := _isSendingMsg a;
     broadcastMode := broadcastMode a; calls := calls a |}.

Definition setBech32Address (v : string) (a : AccountStoreInner) : AccountStoreInner :=
  {| chainId := chainId a; rest := rest a; rpc := rpc a;
     _walletStatus := _walletStatus a; _name := _name a;
     _bech32Address := v; _isSendingMsg := _isSendingMsg a;
     broadcastMode := broadcastMode a; calls := calls a |}.

Definition setName (v : string) (a : AccountStoreInner) : AccountStoreInner :=
  {| chainId := chainId a; rest := rest a; rpc := rpc a;
     _walletStatus := _walletStatus a; _name := v;
     _bech32Address := _bech32Address a; _isSendingMsg := _isSendingMsg a;
     broadcastMode := broadcastMode a; calls := calls a |}.

(** The constructor's [runInAction] block and [this.pubKey = new Uint8Array()],
    before [init] runs. *)
Definition constructed (chain restUrl rpcUrl : string) (suggest : bool) : Store :=
  {| inner := {| chainId := chain; rest := restUrl; rpc := rpcUrl;
                 _walletStatus := Loading; _name := ""; _bech32Address := "";
                 _isSendingMsg := None; broadcastMode := sync; calls := [] |};
     pubKey := [];
     opts_suggestChain := suggest;
     keystoreListener := false |}.

(** The store after the calls [cs] were made, in order. *)
Definition addCalls (cs : list Call) (a : AccountStoreInner) : AccountStoreInner :=
  fold_left (fun a' c => addCall c a') cs a.

(** The answer of a collaborator that is not logged. *)
Definition answer {S A} (r : Res A) : M S A := fun s => (r, s).

(** [try { m } finally { f }], for a [finally] block that does not throw. *)
Definition tryFinally {S A} (m : M S A) (f : S -> S) : M S A :=
  fun s => let '(r, s') := m s in (r, f s').

Section Methods.
Context `{Remote} `{Keplr} `{SecretApi} `{Values}.

(** [enable(keplr, chainId)], for a chain the chain getter knows. *)
Definition enable (chain : string) : M Store unit :=
  let! this := get in
  (if opts_suggestChain this then answer (experimentalSuggestChain chain) else ret tt) ;;;
  answer (keplrEnable chain).

(** [init] *)
Definition init : M Store unit :=
  let! this := get in
  if WalletStatus_eqb (walletStatus (inner this)) NotExist then ret tt
  else
    modify addListener ;;;
    modify (fun s => setInner (setWalletStatus Loading (inner s)) s) ;;;
    if negb keplrPresent then
      modify (fun s => setInner (setWalletStatus NotExist (inner s)) s)
    else
      enable (chainId (inner this)) ;;;
      let! key := answer (keplrGetKey (chainId (inner this))) in
      modify (fun s => setInner (setBech32Address (key_bech32Address key) (inner s)) s) ;;;
      modify (fun s => setInner (setName (key_name key) (inner s)) s) ;;;
      let! pk := answer (fromHex (key_pubKeyHex key)) in
      modify (setPubKey pk) ;;;
      modify (fun s => setInner (setWalletStatus Loaded (inner s)) s).

(** [sendWithdrawDelegationRewardMsgs(validatorAddresses, memo)] *)
Definition sendWithdrawDelegationRewardMsgs (withdrawRewardsOpt : MsgOpt)
    (validatorAddresses : list string) (memo : string) : M AccountStoreInner unit :=
  let! this := get in
  let msgs :=
    map (fun validatorAddress =>
           {| msg_type := opt_type withdrawRewardsOpt;
              msg_value :=
                valueOf
                  [("delegator_address", FieldString (bech32Address this));
                   ("validator_address", FieldString validatorAddress)] |})
        validatorAddresses in
  sendMsgs withdrawRewards msgs
    {| fee_amount := [];
       fee_gas := numberToString
                    (opt_gas withdrawRewardsOpt * N.of_nat (length validatorAddresses)) |}
    memo.

(** [encryptSecretContractMsg(contractAddress, obj)] *)
Definition encryptSecretContractMsg (contractAddress obj : string)
    : M AccountStoreInner bytes :=
  let! this := get in
  let! queryContractCodeHashResponse := answer (codeHashResponse contractAddress) in
  match queryContractCodeHashResponse with
  | None =>
      throw (JsError ("Can't get the code hash of the contract ("
                      ++ contractAddress ++ ")"))
  | Some contractCodeHash =>
      if negb keplrPresent then throw (JsError "Can't get the Keplr API")
      else answer (enigmaEncrypt (chainId this) contractCodeHash obj)
  end.

(** [sendExecuteSecretContractMsg(type, contractAddress, obj, fee, memo)] *)
Definition sendExecuteSecretContractMsg (executeSecretWasmType : string)
    (type : MsgKind) (contractAddress obj : string) (fee : StdFee)
    (memo : string) : M AccountStoreInner bytes :=
  let! encryptedMsg :=
    (modify (setIsSendingMsg (Some type)) ;;;
     tryFinally (encryptSecretContractMsg contractAddress obj)
                (setIsSendingMsg None)) in
  let! this := get in
  let msg :=
    {| msg_type := executeSecretWasmType;
       msg_value :=
         valueOf
           [("sender", FieldString (bech32Address this));
            ("contract", FieldString contractAddress);
            ("callback_code_hash", FieldString "");
            ("msg", FieldString (toBase64 encryptedMsg));
            ("sent_funds", FieldEmptyArray);
            ("callback_sig", FieldNull)] |} in
  sendMsgs type [msg] fee memo ;;;
  ret encryptedMsg.

End Methods.

End Wallet.

(** ** More concrete collaborators for the examples *)

Module Scenario.
Import Keyring Background.

(** A user who rejects every request. *)
Definition rejecting : Collaborators :=
  {| toBech32 := fun a prefix => (prefix ++ "1" ++ string_of_list_byte a)%string;
     bytesToHex := string_of_list_byte;
     hexToBytes := list_byte_of_string;
     userDecision := fun _ _ => Throw UserRejectedError |}.

(** The handler's encoder, the same encoding as the service's. *)
Definition codec : KeyHandler.AddressCodec :=
  {| KeyHandler.addressToBech32 := fun a prefix =>
       (prefix ++ "1" ++ string_of_list_byte a)%string |}.

(** One locked record. *)
Definition lockedWorld : World := Fixture.worldOf (Fixture.ringOf [Fixture.storeA] 0 false).

(** The world after [enable] on the locked record, the user unlocking it. *)
Definition unlockedByUser : World :=
  snd (@Service.enable Fixture.approving Fixture.env0 lockedWorld).

Definition getKeyMsg (origin : string) : KeyHandler.GetKeyMsg :=
  {| KeyHandler.getKey_chainId := "cosmoshub-4"; KeyHandler.getKey_origin := origin |}.

Definition enableMsg (chain origin : string) : Handler.EnableKeyRingMsg :=
  {| Handler.enable_chainId := chain; Handler.enable_origin := origin |}.

(** A permission table that lets everything through. *)
Definition openWorld (w : World) : World :=
  {| keyRing := keyRing w; kvStore := kvStore w; chains := chains w;
     isAllowed := fun _ _ => true; trace := trace w |}.

(** A wallet extension that answers every call. *)
Definition keplr : Wallet.Keplr :=
  {| Wallet.experimentalSuggestChain := fun _ => Ok tt;
     Wallet.keplrEnable := fun _ => Ok tt;
     Wallet.keplrGetKey := fun _ =>
       Ok {| Wallet.key_name := "main"; Wallet.key_bech32Address := "cosmos1a";
             Wallet.key_pubKeyHex := "02ab" |};
     Wallet.fromHex := fun s => Ok (list_byte_of_string s);
     Wallet.numberToString := fun n => pretty n;
     Wallet.toBase64 := string_of_list_byte |}.

(** A wallet extension whose user does not approve the chain. *)
Definition refusingKeplr : Wallet.Keplr :=
  {| Wallet.experimentalSuggestChain := fun _ => Ok tt;
     Wallet.keplrEnable := fun _ => Throw (ExternalError "Request rejected");
     Wallet.keplrGetKey := fun _ =>
       Ok {| Wallet.key_name := "main"; Wallet.key_bech32Address := "cosmos1a";
             Wallet.key_pubKeyHex := "02ab" |};
     Wallet.fromHex := fun s => Ok (list_byte_of_string s);
     Wallet.numberToString := fun n => pretty n;
     Wallet.toBase64 := string_of_list_byte |}.

(** A contract whose code hash is not known. *)
Definition noCodeHash : Wallet.SecretApi :=
  {| Wallet.codeHashResponse := fun _ => Ok None;
     Wallet.enigmaEncrypt := fun _ _ _ => Ok [x00] |}.

Definition secretApi : Wallet.SecretApi :=
  {| Wallet.codeHashResponse := fun _ => Ok (Some "hash");
     Wallet.enigmaEncrypt := fun _ _ obj => Ok (list_byte_of_string obj) |}.

Definition values : Wallet.Values :=
  {| Wallet.valueOf := fun _ => "{}" |}.

(** A wallet that refuses to sign. *)
Definition refusingSigner : Account.Remote :=
  {| Account.fetchFromRest := fun _ _ =>
       Ok {| Account.accountNumber := "7"; Account.sequence := "0" |};
     Account.keplrPresent := true;
     Account.keplrSign := fun _ _ _ => Throw (ExternalError "Request rejected");
     Account.keplrSendTx := fun _ _ _ => Ok [x0a] |}.

Definition withdrawOpt : Wallet.MsgOpt :=
  {| Wallet.opt_type := "cosmos-sdk/MsgWithdrawDelegationReward";
     Wallet.opt_gas := 140000 |}.

End Scenario.

(** * Properties *)

(** ** The monad *)

Lemma bind_Throw {S A B} (m : M S A) (k : A -> M S B) s e s' :
  m s = (Throw e, s') -> bind m k s = (Throw e, s').
Proof. intros E. unfold bind. rewrite E. reflexivity. Qed.

Lemma bind_Ok {S A B} (m : M S A) (k : A -> M S B) s a s' :
  m s = (Ok a, s') -> bind m k s = k a s'.
Proof. intros E. unfold bind. rewrite E. reflexivity. Qed.

(** ** The service's reads do not change the world *)

Section ServiceFacts.
Import Keyring Background.
Context `{KeySource} `{Collaborators}.

Lemma getChainInfo_lookup chainId w :
  getChainInfo chainId w =
  (match chains w !! chainId with Some ci => Ok ci | None => Throw ChainUnknownError end, w).
Proof. unfold getChainInfo. destruct (chains w !! chainId); reflexivity. Qed.

Lemma getChainCoinType_lookup chainId w :
  getChainCoinType chainId w =
  (match chains w !! chainId with
   | Some ci => Ok (bip44_coinType ci)
   | None => Throw ChainUnknownError
   end, w).
Proof.
  unfold getChainCoinType, bind. rewrite getChainInfo_lookup.
  destruct (chains w !! chainId); reflexivity.
Qed.

Lemma getKey_lookup chainId w :
  Service.getKey chainId w =
  (match chains w !! chainId with
   | Some ci => Keyring.getKey chainId (bip44_coinType ci) (keyRing w)
   | None => Throw ChainUnknownError
   end, w).
Proof.
  unfold Service.getKey, bind. rewrite getChainCoinType_lookup.
  destruct (chains w !! chainId); reflexivity.
Qed.

Lemma checkBech32Address_unfold chainId bech32Address w :
  Service.checkBech32Address chainId bech32Address w =
  (match chains w !! chainId with
   | None => Throw ChainUnknownError
   | Some ci =>
       match Keyring.getKey chainId (bip44_coinType ci) (keyRing w) with
       | Throw e => Throw e
       | Ok key =>
           if String.eqb bech32Address (toBech32 (address key) (bech32PrefixAccAddr ci))
           then Ok tt
           else Throw Service.AddressMismatchError
       end
   end, w).
Proof.
  unfold Service.checkBech32Address, bind. rewrite getKey_lookup.
  destruct (chains w !! chainId) as [ci|] eqn:Hc; [|reflexivity].
  destruct (Keyring.getKey _ _ _) as [key|e]; [|reflexivity].
  rewrite getChainInfo_lookup, Hc.
  destruct (String.eqb _ _); reflexivity.
Qed.

(** The key ring never fails with the mismatch error. *)
Lemma getKey_not_mismatch chainId c kr :
  Keyring.getKey chainId c kr <> Throw Service.AddressMismatchError.
Proof.
  unfold Keyring.getKey.
  destruct (status kr), (keyStore kr); discriminate.
Qed.

End ServiceFacts.

(** ** Address check before signing *)

Section AddressCheck.
Import Keyring Background Handler.
Context `{KeySource} `{Collaborators}.

(** The permission check of the keeper reads the permission table only. *)
Lemma checkAccessOrigin_unfold url chainId origin w :
  checkAccessOrigin url chainId origin w =
  (if isAllowed w origin chainId then Ok tt else Throw OriginNotAllowedError, w).
Proof. unfold checkAccessOrigin. destruct (isAllowed w origin chainId); reflexivity. Qed.

(** For any keeper, a failing address check ends the request-sign handler:
    the outcome does not depend on the keeper's [requestSign]. *)
Lemma handleRequestSignMsg_stops_at_address_check (k : KeyRingKeeper) env msg w w1 e w2 :
  k_checkAccessOrigin k (extensionBaseURL env) (sign_chainId msg) (sign_origin msg) w
    = (Ok tt, w1) ->
  k_checkBech32Address k (sign_chainId msg) (sign_bech32Address msg) w1 = (Throw e, w2) ->
  handleRequestSignMsg k env msg w = (Throw e, w2).
Proof.
  intros Ho Ha. unfold handleRequestSignMsg.
  rewrite (bind_Ok _ _ _ _ _ Ho). apply bind_Throw, Ha.
Qed.

(** With the origin allowed and the address check passed, the handler goes
    on to [requestSign]. *)
Lemma handleRequestSignMsg_passes_checks env msg w :
  isAllowed w (sign_origin msg) (sign_chainId msg) = true ->
  fst (Service.checkBech32Address (sign_chainId msg) (sign_bech32Address msg) w) = Ok tt ->
  handleRequestSignMsg keeper env msg w
  = (let! signature :=
       Service.requestSign {| extensionBaseURL := extensionBaseURL env |}
         (sign_chainId msg) (hexToBytes (sign_messageHex msg)) (sign_skipApprove msg) in
     ret (bytesToHex signature)) w.
Proof.
  intros Ha Hc. unfold handleRequestSignMsg, keeper; simpl.
  unfold bind at 1. rewrite checkAccessOrigin_unfold, Ha.
  unfold bind at 1. rewrite checkBech32Address_unfold in Hc |- *. simpl in Hc.
  rewrite Hc. reflexivity.
Qed.

(** C1. [checkBech32Address] fails with the address-mismatch error exactly
    when the key of the active record resolves for the chain and the supplied
    address differs from its bech32 encoding under the chain's account prefix;
    it never changes the world; and whenever it fails for the address of a
    request-sign message, the handler throws with the world untouched, so no
    signing step (and no Pending request) is reached. *)
Theorem checkBech32Address_guards_signing chainId bech32Address w :
  (fst (Service.checkBech32Address chainId bech32Address w)
     = Throw Service.AddressMismatchError
   <-> exists key ci,
         fst (Service.getKey chainId w) = Ok key
         /\ chains w !! chainId = Some ci
         /\ bech32Address <> toBech32 (address key) (bech32PrefixAccAddr ci))
  /\ (forall key ci,
        fst (Service.getKey chainId w) = Ok key ->
        chains w !! chainId = Some ci ->
        (fst (Service.checkBech32Address chainId bech32Address w) = Ok tt
         <-> bech32Address = toBech32 (address key) (bech32PrefixAccAddr ci)))
  /\ snd (Service.checkBech32Address chainId bech32Address w) = w
  /\ (forall env msg e,
        sign_chainId msg = chainId ->
        sign_bech32Address msg = bech32Address ->
        fst (Service.checkBech32Address chainId bech32Address w) = Throw e ->
        exists e',
          handleRequestSignMsg keeper env msg w = (Throw e', w)
          /\ signingSteps (snd (handleRequestSignMsg keeper env msg w)) = signingSteps w).
Proof.
  rewrite checkBech32Address_unfold, getKey_lookup. simpl.
  split; [split|split; [|split]].
  - destruct (chains w !! chainId) as [ci|]; [|discriminate].
    destruct (Keyring.getKey _ _ _) as [key|e] eqn:Hk.
    + destruct (String.eqb _ _) eqn:Heq; [discriminate|].
      intros _. exists key, ci. repeat split.
      apply String.eqb_neq, Heq.
    + intros E. exfalso. injection E as ->.
      exact (getKey_not_mismatch _ _ _ Hk).
  - intros (key & ci & Hk & Hc & Hne). rewrite Hc in *. rewrite Hk.
    apply String.eqb_neq in Hne. rewrite Hne. reflexivity.
  - intros key ci Hk Hc. rewrite Hc in *. rewrite Hk. split.
    + destruct (String.eqb _ _) eqn:Heq; [|discriminate].
      intros _. apply String.eqb_eq, Heq.
    + intros ->. rewrite String.eqb_refl. reflexivity.
  - reflexivity.
  - intros env msg e Hc Ha Hthrow.
    assert (Hchk : Service.checkBech32Address (sign_chainId msg) (sign_bech32Address msg) w
                   = (Throw e, w)).
    { rewrite Hc, Ha, checkBech32Address_unfold. f_equal. exact Hthrow. }
    assert (exists e', handleRequestSignMsg keeper env msg w = (Throw e', w))
      as [e' He'].
    { unfold handleRequestSignMsg, keeper; simpl.
      unfold bind at 1. rewrite checkAccessOrigin_unfold.
      destruct (isAllowed w (sign_origin msg) (sign_chainId msg)).
      - rewrite (bind_Throw _ _ _ _ _ Hchk). eexists; reflexivity.
      - eexists; reflexivity. }
    exists e'. rewrite He'. split; reflexivity.
Qed.

End AddressCheck.

(** A request-sign message of an allowed origin with an address that is not
    the active key's: the check fails with the mismatch error and the handler
    stops before signing. *)
Lemma checkBech32Address_guards_signing_witness :
  fst (@Service.checkBech32Address Fixture.keySource Fixture.approving
         "cosmoshub-4" "cosmos1wrong" Fixture.unlockedWorld)
    = Throw Service.AddressMismatchError
  /\ exists e',
       @Handler.handleRequestSignMsg Fixture.approving
          (@Handler.keeper Fixture.keySource Fixture.approving)
          Fixture.env0 (Fixture.signMsgWrongAddress Fixture.dapp)
          Fixture.unlockedWorld
       = (Throw e', Fixture.unlockedWorld).
Proof.
  destruct (@checkBech32Address_guards_signing Fixture.keySource Fixture.approving
              "cosmoshub-4" "cosmos1wrong" Fixture.unlockedWorld)
    as (Hiff & _ & _ & Hh).
  assert (Hm : fst (@Service.checkBech32Address Fixture.keySource Fixture.approving
                      "cosmoshub-4" "cosmos1wrong" Fixture.unlockedWorld)
               = Throw Service.AddressMismatchError).
  { apply Hiff.
    exists (@Keyring.deriveKey Fixture.keySource Fixture.storeA 2), Fixture.cosmoshub.
    split; [vm_compute; reflexivity|].
    split; [vm_compute; reflexivity|].
    vm_compute. discriminate. }
  split; [exact Hm|].
  destruct (Hh Fixture.env0 (Fixture.signMsgWrongAddress Fixture.dapp) _ eq_refl eq_refl Hm)
    as (e' & He' & _).
  exists e'. exact He'.
Defined.

(** ** [enable] and the lifecycle states *)

Section EnableFacts.
Import Keyring Background.
Context `{Collaborators}.

(** Called with the ring EMPTY, [enable] throws. *)
Lemma enable_EMPTY env w :
  status (keyRing w) = EMPTY -> Service.enable env w = (Throw Service.NoKey, w).
Proof.
  intros E. unfold Service.enable, bind, keyRing_status, gets. rewrite E. reflexivity.
Qed.

(** Called with the ring UNLOCKED, it returns the status and changes nothing. *)
Lemma enable_UNLOCKED env w :
  status (keyRing w) = UNLOCKED -> Service.enable env w = (Ok UNLOCKED, w).
Proof.
  intros E. unfold Service.enable, bind, keyRing_status, gets, ret. rewrite E. simpl.
  rewrite E. simpl. rewrite E. reflexivity.
Qed.

(** Called with the ring LOCKED, it records the unlock request and returns
    the status the interaction left, or fails when the user rejects. *)
Lemma enable_LOCKED env w :
  status (keyRing w) = LOCKED ->
  Service.enable env w =
  (waitApprove env "/unlock" EnableKeyRingMsg_type JEmptyObject ;;; keyRing_status) w.
Proof.
  intros E. unfold Service.enable, bind at 1, keyRing_status at 1, gets. rewrite E. simpl.
  unfold bind at 1, ret. unfold bind at 1, keyRing_status at 1, gets. rewrite E. reflexivity.
Qed.

(** Called with the ring NOTLOADED, it restores first and goes on from the
    restored ring without looking for EMPTY again. *)
Lemma enable_NOTLOADED env w :
  status (keyRing w) = NOTLOADED ->
  Service.enable env w =
  let w' := setKeyRing (restore (kvStore w) (keyRing w)) w in
  if KeyRingStatus_eqb (status (keyRing w')) LOCKED
  then (waitApprove env "/unlock" EnableKeyRingMsg_type JEmptyObject ;;; keyRing_status) w'
  else (Ok (status (keyRing w')), w').
Proof.
  intros E. unfold Service.enable, bind at 1, keyRing_status at 1, gets. rewrite E. simpl.
  unfold bind at 1, keyRing_restore, modify. unfold bind at 1, keyRing_status at 1, gets.
  destruct (KeyRingStatus_eqb _ LOCKED); reflexivity.
Qed.

(** C2 (the case the code misses).  In a fresh process with nothing
    persisted the ring is NOTLOADED; [enable] restores it, finds no record,
    and returns EMPTY instead of throwing. *)
Theorem enable_fresh_process_returns_EMPTY env :
  status (keyRing Fixture.freshWorld) = NOTLOADED
  /\ fst (Service.enable env Fixture.freshWorld) = Ok EMPTY
  /\ trace (snd (Service.enable env Fixture.freshWorld)) = [].
Proof.
  split; [reflexivity|].
  rewrite enable_NOTLOADED by reflexivity.
  (* the restored ring holds no record: it is EMPTY, not LOCKED *)
  simpl. split; reflexivity.
Qed.

End EnableFacts.

(** ** Permission check before any Pending request *)

Section OriginCheck.
Import Keyring Background Handler.
Context `{KeySource} `{Collaborators}.

(** For any keeper, a failing permission check ends either handler at once:
    nothing the keeper does afterwards is run. *)
Lemma handlers_stop_at_origin_check (k : KeyRingKeeper) env w e w' :
  (forall msg,
     k_checkAccessOrigin k (extensionBaseURL env) (sign_chainId msg) (sign_origin msg) w
       = (Throw e, w') ->
     handleRequestSignMsg k env msg w = (Throw e, w'))
  /\ (forall msg,
        k_checkAccessOrigin k (extensionBaseURL env) (cfg_chainId (txc_config msg))
          (txc_origin msg) w = (Throw e, w') ->
        handleRequestTxBuilderConfigMsg k env msg w = (Throw e, w')).
Proof.
  split; intros msg Ho.
  - unfold handleRequestSignMsg. apply bind_Throw, Ho.
  - unfold handleRequestTxBuilderConfigMsg. apply bind_Throw, Ho.
Qed.

(** C3. If the origin of a request-sign or request-tx-config message is not
    allowed for the chain, the handler throws at the permission check and
    leaves the world as it was: no Pending request is recorded, whatever the
    message's [skipApprove] flag says. *)
Theorem origin_check_precedes_pending env w :
  (forall msg,
     isAllowed w (sign_origin msg) (sign_chainId msg) = false ->
     handleRequestSignMsg keeper env msg w = (Throw OriginNotAllowedError, w)
     /\ pendingRequests (snd (handleRequestSignMsg keeper env msg w)) = pendingRequests w)
  /\ (forall msg,
        isAllowed w (txc_origin msg) (cfg_chainId (txc_config msg)) = false ->
        handleRequestTxBuilderConfigMsg keeper env msg w = (Throw OriginNotAllowedError, w)
        /\ pendingRequests (snd (handleRequestTxBuilderConfigMsg keeper env msg w))
           = pendingRequests w).
Proof.
  destruct (handlers_stop_at_origin_check keeper env w OriginNotAllowedError w)
    as [Hs Hc].
  split; intros msg Hna.
  - assert (E : handleRequestSignMsg keeper env msg w = (Throw OriginNotAllowedError, w)).
    { apply Hs. simpl. rewrite checkAccessOrigin_unfold, Hna. reflexivity. }
    rewrite E. split; reflexivity.
  - assert (E : handleRequestTxBuilderConfigMsg keeper env msg w
                = (Throw OriginNotAllowedError, w)).
    { apply Hc. simpl. rewrite checkAccessOrigin_unfold, Hna. reflexivity. }
    rewrite E. split; reflexivity.
Qed.

(** When the origin is allowed and approval is asked for, the request-tx-config
    handler does record a Pending request: the check above is what keeps the
    log unchanged. *)
Lemma allowed_request_is_recorded env msg w :
  isAllowed w (txc_origin msg) (cfg_chainId (txc_config msg)) = true ->
  txc_skipApprove msg = false ->
  pendingRequests (snd (handleRequestTxBuilderConfigMsg keeper env msg w))
  = pendingRequests w
    ++ [{| i_env := {| extensionBaseURL := extensionBaseURL env |};
           i_uri := "/fee"; i_type := RequestTxBuilderConfigMsg_type;
           i_data := JConfig (txc_config msg) |}].
Proof.
  intros Ha Hs. unfold handleRequestTxBuilderConfigMsg, keeper; simpl.
  unfold bind at 1. rewrite checkAccessOrigin_unfold, Ha.
  unfold Service.requestTxBuilderConfig. rewrite Hs.
  unfold bind, waitApprove, pendingRequests.
  destruct (userDecision _ _) as [[v kr']|e]; simpl.
  - destruct (truthy v); simpl; rewrite omap_app; reflexivity.
  - rewrite omap_app; reflexivity.
Qed.

End OriginCheck.

(** An origin that was never approved asks to sign and to configure a
    transaction. *)
Lemma origin_check_precedes_pending_witness :
  @Handler.handleRequestSignMsg Fixture.approving
     (@Handler.keeper Fixture.keySource Fixture.approving)
     Fixture.env0 (Fixture.signMsgWrongAddress "https://evil.example")
     Fixture.unlockedWorld
  = (Throw OriginNotAllowedError, Fixture.unlockedWorld)
  /\ @Handler.handleRequestTxBuilderConfigMsg
       (@Handler.keeper Fixture.keySource Fixture.approving)
       Fixture.env0 (Fixture.configMsg "https://evil.example" false)
       Fixture.unlockedWorld
     = (Throw OriginNotAllowedError, Fixture.unlockedWorld).
Proof.
  destruct (@origin_check_precedes_pending Fixture.keySource Fixture.approving
              Fixture.env0 Fixture.unlockedWorld) as [Hs Hc].
  split.
  - apply (Hs (Fixture.signMsgWrongAddress "https://evil.example")). reflexivity.
  - apply (Hc (Fixture.configMsg "https://evil.example" false)). reflexivity.
Defined.

(** ** Approval-gated requests *)

Section Approval.
Import Keyring Background.
Context `{KeySource} `{Collaborators}.

Lemma sign_unfold env chainId message w :
  Service.sign env chainId message w =
  match chains w !! chainId with
  | Some ci =>
      (Keyring.sign chainId (bip44_coinType ci) message (keyRing w),
       addEvent (EvSign chainId (bip44_coinType ci) message) w)
  | None => (Throw ChainUnknownError, w)
  end.
Proof.
  unfold Service.sign, bind. rewrite getChainCoinType_lookup.
  destruct (chains w !! chainId); reflexivity.
Qed.

Lemma pendingRequests_addEvent_sign c t m w :
  pendingRequests (addEvent (EvSign c t m) w) = pendingRequests w.
Proof.
  unfold pendingRequests, addEvent; simpl. rewrite omap_app; simpl.
  apply app_nil_r.
Qed.

(** C4. With [skipApprove] set, [requestTxBuilderConfig] returns the
    submitted config and leaves the world untouched, and [requestSign] is the
    direct signing path: it records no Pending request, and with the ring
    unlocked on a known chain its result is the signature of the active
    record for the coin type resolved for the chain. *)
Theorem skipApprove_bypasses_interaction env config chainId message w :
  Service.requestTxBuilderConfig env config true w = (Ok (JConfig config), w)
  /\ Service.requestSign env chainId message true w = Service.sign env chainId message w
  /\ pendingRequests (snd (Service.requestSign env chainId message true w))
     = pendingRequests w
  /\ (forall ks ci,
        status (keyRing w) = UNLOCKED ->
        keyStore (keyRing w) = Some ks ->
        chains w !! chainId = Some ci ->
        fst (Service.requestSign env chainId message true w)
        = signWith ks (computeKeyStoreCoinType ks chainId (bip44_coinType ci)) message).
Proof.
  assert (E : Service.requestSign env chainId message true w
              = Service.sign env chainId message w) by reflexivity.
  split; [reflexivity|]. split; [exact E|]. rewrite E, sign_unfold. split.
  - destruct (chains w !! chainId); [|reflexivity].
    apply pendingRequests_addEvent_sign.
  - intros ks ci Hst Hks Hc. rewrite Hc. simpl.
    unfold Keyring.sign. rewrite Hst, Hks. reflexivity.
Qed.

(** C5. Without [skipApprove], [requestTxBuilderConfig] records one Pending
    request carrying the submitted config; when the interaction resolves it
    with a config object, the caller receives exactly that object, and when
    it resolves it with [null] or [undefined], the call fails. *)
Theorem requestTxBuilderConfig_resolution env config w v kr' :
  userDecision {| i_env := env; i_uri := "/fee";
                  i_type := RequestTxBuilderConfigMsg_type;
                  i_data := JConfig config |} (keyRing w) = Ok (v, kr') ->
  (forall c, v = JConfig c ->
     fst (Service.requestTxBuilderConfig env config false w) = Ok (JConfig c))
  /\ (v = JNull \/ v = JUndefined ->
      fst (Service.requestTxBuilderConfig env config false w)
      = Throw Service.NullConfigError)
  /\ fst (Service.requestTxBuilderConfig env config false w)
     = (if truthy v then Ok v else Throw Service.NullConfigError)
  /\ pendingRequests (snd (Service.requestTxBuilderConfig env config false w))
     = pendingRequests w
       ++ [{| i_env := env; i_uri := "/fee"; i_type := RequestTxBuilderConfigMsg_type;
              i_data := JConfig config |}].
Proof.
  intros Hd.
  assert (E : Service.requestTxBuilderConfig env config false w
              = (if truthy v then Ok v else Throw Service.NullConfigError,
                 setKeyRing kr'
                   (addEvent (EvWaitApprove
                      {| i_env := env; i_uri := "/fee";
                         i_type := RequestTxBuilderConfigMsg_type;
                         i_data := JConfig config |}) w))).
  { unfold Service.requestTxBuilderConfig, bind, waitApprove. rewrite Hd.
    destruct (truthy v); reflexivity. }
  rewrite E. simpl. repeat split.
  - intros c ->. reflexivity.
  - intros [-> | ->]; reflexivity.
  - unfold pendingRequests; simpl. rewrite omap_app. reflexivity.
Qed.

End Approval.

(** An unlocked ring signs for the extension's own flow without asking. *)
Lemma skipApprove_bypasses_interaction_witness :
  fst (@Service.requestSign Fixture.keySource Fixture.approving Fixture.env0
         "cosmoshub-4" [x01; x02] true Fixture.unlockedWorld)
  = Ok [x61; x01; x02].
Proof.
  destruct (@skipApprove_bypasses_interaction Fixture.keySource Fixture.approving
              Fixture.env0 Fixture.config0 "cosmoshub-4" [x01; x02]
              Fixture.unlockedWorld) as (_ & _ & _ & Hsig).
  rewrite (Hsig Fixture.storeA Fixture.cosmoshub); reflexivity.
Defined.

(** The user approves with an edited fee; another page resolves with [null]. *)
Lemma requestTxBuilderConfig_resolution_witness :
  fst (@Service.requestTxBuilderConfig Fixture.editing Fixture.env0 Fixture.config0
         false Fixture.unlockedWorld)
  = Ok (JConfig Fixture.config1)
  /\ fst (@Service.requestTxBuilderConfig Fixture.resolvingNull Fixture.env0
            Fixture.config0 false Fixture.unlockedWorld)
     = Throw Service.NullConfigError.
Proof.
  split.
  - refine (proj1 (@requestTxBuilderConfig_resolution Fixture.editing Fixture.env0
                     Fixture.config0 Fixture.unlockedWorld (JConfig Fixture.config1)
                     _ eq_refl) Fixture.config1 eq_refl).
  - refine (proj1 (proj2 (@requestTxBuilderConfig_resolution Fixture.resolvingNull
                     Fixture.env0 Fixture.config0 Fixture.unlockedWorld JNull
                     _ eq_refl)) (or_introl eq_refl)).
Defined.

(** ** Coin-type overrides are set once *)

Section CoinType.
Import Keyring Background.
Context `{KeySource} `{Collaborators}.

Lemma isKeyStoreCoinTypeSet_true chainId kr :
  Keyring.isKeyStoreCoinTypeSet chainId kr = true
  <-> exists ks, keyStore kr = Some ks /\ is_Some (ks_coinTypeForChain ks !! chainId).
Proof.
  unfold Keyring.isKeyStoreCoinTypeSet. destruct (keyStore kr) as [ks|].
  - rewrite bool_decide_eq_true. split.
    + intros Hs. exists ks. split; [reflexivity|exact Hs].
    + intros (ks' & [= <-] & Hs). exact Hs.
  - split; [discriminate|]. intros (ks & [=] & _).
Qed.

(** A chain whose override is set refuses every further one. *)
Lemma setKeyStoreCoinType_refused chainId t kr :
  Keyring.isKeyStoreCoinTypeSet chainId kr = true ->
  Keyring.setKeyStoreCoinType chainId t kr = Throw CoinTypeAlreadySetError.
Proof.
  intros (ks & Hks & Hs)%isKeyStoreCoinTypeSet_true.
  unfold Keyring.setKeyStoreCoinType. rewrite Hks.
  rewrite bool_decide_eq_true_2 by exact Hs. reflexivity.
Qed.

(** What a successful override leaves behind. *)
Lemma setKeyStoreCoinType_Ok chainId t kr kr' :
  Keyring.setKeyStoreCoinType chainId t kr = Ok kr' ->
  exists ks,
    keyStore kr = Some ks
    /\ ks_coinTypeForChain ks !! chainId = None
    /\ keyStore kr' = Some (withCoinType ks chainId t)
    /\ selected kr' = selected kr
    /\ status kr' = status kr.
Proof.
  unfold Keyring.setKeyStoreCoinType. destruct (keyStore kr) as [ks|] eqn:Hks; [|discriminate].
  case_bool_decide as Hs; [discriminate|]. intros [= <-].
  exists ks. split; [reflexivity|]. split.
  { destruct (ks_coinTypeForChain ks !! chainId) eqn:E; [|reflexivity].
    exfalso. apply Hs. eexists; reflexivity. }
  unfold keyStore in *; simpl.
  pose proof (lookup_lt_Some _ _ _ Hks) as Hlt.
  split; [apply list_lookup_insert_eq, Hlt|]. split; [reflexivity|].
  unfold status; simpl.
  destruct (multiKeyStore kr) as [|k l] eqn:El; [simpl in Hlt; lia|].
  destruct (selected kr); reflexivity.
Qed.

(** An override, once set, survives every later successful override of the
    same record, for whatever chain. *)
Lemma setKeyStoreCoinType_keeps chainId c t kr kr' :
  Keyring.isKeyStoreCoinTypeSet chainId kr = true ->
  Keyring.setKeyStoreCoinType c t kr = Ok kr' ->
  Keyring.isKeyStoreCoinTypeSet chainId kr' = true.
Proof.
  intros (ks & Hks & Hs)%isKeyStoreCoinTypeSet_true
         (ks' & Hks' & _ & Hnew & _)%setKeyStoreCoinType_Ok.
  rewrite Hks in Hks'. injection Hks' as <-.
  apply isKeyStoreCoinTypeSet_true. eexists. split; [exact Hnew|].
  simpl. destruct (decide (c = chainId)) as [->|Hne].
  - rewrite lookup_insert_eq. eexists; reflexivity.
  - rewrite lookup_insert_ne by exact Hne. exact Hs.
Qed.

Lemma setKeyStoreCoinType_service chainId t w :
  Service.setKeyStoreCoinType chainId t w =
  match Keyring.setKeyStoreCoinType chainId t (keyRing w) with
  | Ok kr' => (Ok tt, setKvStore (multiKeyStore kr', selected kr') (setKeyRing kr' w))
  | Throw e => (Throw e, w)
  end.
Proof. reflexivity. Qed.

(** C6. On a record without an override for the chain, the first
    [setKeyStoreCoinType] succeeds and writes the override; from then on every
    [setKeyStoreCoinType] for that chain on the record fails and changes
    nothing, also after overrides for other chains; and before any override,
    [getKey] derives with the chain's default coin type. *)
Theorem setKeyStoreCoinType_set_once chainId t1 w ks :
  keyStore (keyRing w) = Some ks ->
  ks_coinTypeForChain ks !! chainId = None ->
  (exists w1,
     Service.setKeyStoreCoinType chainId t1 w = (Ok tt, w1)
     /\ keyStore (keyRing w1) = Some (withCoinType ks chainId t1)
     /\ Keyring.isKeyStoreCoinTypeSet chainId (keyRing w1) = true)
  /\ (forall w' t2,
        Keyring.isKeyStoreCoinTypeSet chainId (keyRing w') = true ->
        Service.setKeyStoreCoinType chainId t2 w' = (Throw CoinTypeAlreadySetError, w'))
  /\ (forall w' c t w'',
        Keyring.isKeyStoreCoinTypeSet chainId (keyRing w') = true ->
        Service.setKeyStoreCoinType c t w' = (Ok tt, w'') ->
        Keyring.isKeyStoreCoinTypeSet chainId (keyRing w'') = true)
  /\ (forall ci,
        status (keyRing w) = UNLOCKED ->
        chains w !! chainId = Some ci ->
        Service.getKey chainId w = (Ok (deriveKey ks (bip44_coinType ci)), w)).
Proof.
  intros Hks Hnone. split; [|split; [|split]].
  - rewrite setKeyStoreCoinType_service.
    destruct (Keyring.setKeyStoreCoinType chainId t1 (keyRing w)) as [kr1|e] eqn:E.
    + destruct (setKeyStoreCoinType_Ok _ _ _ _ E) as (ks' & Hks' & _ & Hnew & _).
      rewrite Hks in Hks'. injection Hks' as <-.
      eexists. split; [reflexivity|]. simpl. split; [exact Hnew|].
      apply isKeyStoreCoinTypeSet_true. eexists. split; [exact Hnew|].
      simpl. rewrite lookup_insert_eq. eexists; reflexivity.
    + exfalso. unfold Keyring.setKeyStoreCoinType in E. rewrite Hks in E.
      rewrite bool_decide_eq_false_2 in E; [discriminate|].
      rewrite Hnone. intros [x [=]].
  - intros w' t2 Hset. rewrite setKeyStoreCoinType_service.
    rewrite (setKeyStoreCoinType_refused _ _ _ Hset). reflexivity.
  - intros w' c t w'' Hset. rewrite setKeyStoreCoinType_service.
    destruct (Keyring.setKeyStoreCoinType c t (keyRing w')) as [kr'|e] eqn:E; [|discriminate].
    intros [= <-]. simpl. exact (setKeyStoreCoinType_keeps _ _ _ _ _ Hset E).
  - intros ci Hst Hc. rewrite getKey_lookup, Hc.
    unfold Keyring.getKey. rewrite Hst, Hks.
    unfold computeKeyStoreCoinType. rewrite Hnone. reflexivity.
Qed.

End CoinType.

(** The unlocked record of the examples has no override for the hub: the
    first override is taken, the second refused. *)
Lemma setKeyStoreCoinType_set_once_witness :
  exists w1,
    @Service.setKeyStoreCoinType "cosmoshub-4" 118 Fixture.unlockedWorld = (Ok tt, w1)
    /\ @Service.setKeyStoreCoinType "cosmoshub-4" 330 w1
       = (Throw CoinTypeAlreadySetError, w1).
Proof.
  destruct (@setKeyStoreCoinType_set_once Fixture.keySource "cosmoshub-4" 118
              Fixture.unlockedWorld Fixture.storeA eq_refl eq_refl)
    as ((w1 & Hfirst & _ & Hset) & Hrefuse & _).
  exists w1. split; [exact Hfirst|]. apply Hrefuse, Hset.
Defined.

(** ** Deleting key stores keeps the selection valid *)

Section Delete.
Import Keyring Background.
Context `{KeySource}.

(** What a successful delete leaves behind. *)
Lemma deleteKeyRing_Ok index password kr kr' :
  Keyring.deleteKeyRing index password kr = Ok kr' ->
  exists ks,
    multiKeyStore kr !! index = Some ks
    /\ decryptOk ks password = true
    /\ loaded kr' = loaded kr
    /\ multiKeyStore kr' = delete index (multiKeyStore kr)
    /\ selected kr' = reselect index (selected kr).
Proof.
  unfold Keyring.deleteKeyRing.
  destruct (multiKeyStore kr !! index) as [ks|] eqn:Hi; [|discriminate].
  destruct (decryptOk ks password) eqn:Hp; [|discriminate].
  intros [= <-]. exists ks. simpl. auto.
Qed.

Lemma reselect_valid index sel (l : list KeyStore) :
  index < length l ->
  (l <> [] -> sel < length l) ->
  delete index l <> [] ->
  reselect index sel < length (delete index l).
Proof.
  intros Hi Hsel Hrest.
  assert (Hl : l <> []) by (intros ->; simpl in Hi; lia).
  specialize (Hsel Hl).
  assert (Hlen : length (delete index l) = length l - 1).
  { apply length_delete, lookup_lt_is_Some_2, Hi. }
  assert (0 < length (delete index l)).
  { destruct (delete index l); [congruence|simpl; lia]. }
  unfold reselect.
  destruct (Nat.eqb_spec index sel); [lia|].
  destruct (Nat.ltb_spec index sel); lia.
Qed.

(** The invariant is kept by the key ring's own transition. *)
Lemma deleteKeyRing_selectedValid index password kr kr' :
  selectedValid kr ->
  Keyring.deleteKeyRing index password kr = Ok kr' ->
  selectedValid kr'.
Proof.
  intros Hv (ks & Hi & _ & _ & Hl & Hs)%deleteKeyRing_Ok.
  unfold selectedValid in *. rewrite Hl, Hs.
  apply reselect_valid; [exact (lookup_lt_Some _ _ _ Hi)|exact Hv].
Qed.

Lemma deleteKeyRing_service index password w :
  Service.deleteKeyRing index password w =
  match Keyring.deleteKeyRing index password (keyRing w) with
  | Ok kr' =>
      (Ok (getMultiKeyStoreInfo kr', status kr'),
       setKvStore (multiKeyStore kr', selected kr') (setKeyRing kr' w))
  | Throw e => (Throw e, w)
  end.
Proof.
  unfold Service.deleteKeyRing, bind, keyRing_update.
  destruct (Keyring.deleteKeyRing index password (keyRing w)); reflexivity.
Qed.

(** C7. If the selected index was valid before [deleteKeyRing], it is valid
    after it, whether the call succeeds or fails.  A successful delete of the
    selected record of a collection of more than one re-selects index 0,
    which exists; a successful delete of the only record of a loaded ring
    leaves the ring, and the status the call returns, EMPTY. *)
Theorem deleteKeyRing_preserves_selection index password w :
  selectedValid (keyRing w) ->
  selectedValid (keyRing (snd (Service.deleteKeyRing index password w)))
  /\ (forall info st,
        fst (Service.deleteKeyRing index password w) = Ok (info, st) ->
        let kr' := keyRing (snd (Service.deleteKeyRing index password w)) in
        length (multiKeyStore kr') = length (multiKeyStore (keyRing w)) - 1
        /\ (index = selected (keyRing w) ->
            1 < length (multiKeyStore (keyRing w)) ->
            selected kr' = 0 /\ is_Some (keyStore kr'))
        /\ (length (multiKeyStore (keyRing w)) = 1 ->
            loaded (keyRing w) = true ->
            multiKeyStore kr' = [] /\ status kr' = EMPTY /\ st = EMPTY)).
Proof.
  intros Hv. rewrite deleteKeyRing_service.
  destruct (Keyring.deleteKeyRing index password (keyRing w)) as [kr'|e] eqn:E; simpl.
  - split; [exact (deleteKeyRing_selectedValid _ _ _ _ Hv E)|].
    intros info st [= _ <-].
    destruct (deleteKeyRing_Ok _ _ _ _ E) as (ks & Hi & _ & Hld & Hl & Hs).
    assert (Hlen : length (multiKeyStore kr') = length (multiKeyStore (keyRing w)) - 1).
    { rewrite Hl. apply length_delete. eexists; exact Hi. }
    split; [exact Hlen|]. split.
    + intros -> Hn. split.
      * rewrite Hs. unfold reselect. rewrite Nat.eqb_refl. reflexivity.
      * unfold keyStore. apply lookup_lt_is_Some_2.
        rewrite Hs. unfold reselect. rewrite Nat.eqb_refl. lia.
    + intros H1 Hloaded.
      assert (Hnil : multiKeyStore kr' = []).
      { destruct (multiKeyStore kr'); [reflexivity|simpl in Hlen; lia]. }
      assert (Hst : status kr' = EMPTY).
      { unfold status. rewrite Hld, Hloaded, Hnil. reflexivity. }
      repeat split; assumption.
  - split; [exact Hv|]. intros info st [=].
Qed.

End Delete.

(** Two records with the second selected: deleting it re-selects the first;
    deleting that one too empties the ring. *)
Lemma deleteKeyRing_preserves_selection_witness :
  Keyring.selectedValid
    (Background.keyRing
       (snd (@Service.deleteKeyRing Fixture.keySource 1 "pw1" Fixture.twoStores)))
  /\ fst (@Service.deleteKeyRing Fixture.keySource 0 "pw1"
            (snd (@Service.deleteKeyRing Fixture.keySource 1 "pw1" Fixture.twoStores)))
     = Ok ([], Keyring.EMPTY).
Proof.
  split.
  - apply (@deleteKeyRing_preserves_selection Fixture.keySource 1 "pw1").
    unfold Keyring.selectedValid; simpl. lia.
  - reflexivity.
Defined.

(** ** Selectable derivation paths *)

Section Selectables.
Import Keyring Background.
Context `{KeySource} `{Collaborators}.

Lemma getKeyFromCoinType_unlocked coinType kr ks :
  status kr = UNLOCKED -> keyStore kr = Some ks ->
  getKeyFromCoinType coinType kr = Ok (deriveKey ks coinType).
Proof. intros Hst Hks. unfold getKeyFromCoinType. rewrite Hst, Hks. reflexivity. Qed.

(** The loop of [getKeyStoreBIP44Selectables]: it only reads the key ring,
    and what it returns has one entry per path, in order. *)
Lemma selectables_loop_inv (ci : ChainInfo) paths w l w' :
  forEachPush
    (fun path =>
       let! key := keyRing_read (getKeyFromCoinType (Service.coinType path)) in
       ret (path, toBech32 (address key) (bech32PrefixAccAddr ci)))
    paths w = (Ok l, w') ->
  w' = w
  /\ Forall2
       (fun path entry =>
          exists key,
            getKeyFromCoinType (Service.coinType path) (keyRing w) = Ok key
            /\ entry = (path, toBech32 (address key) (bech32PrefixAccAddr ci)))
       paths l.
Proof.
  revert l w'. induction paths as [|path paths IH]; intros l w'; simpl.
  - intros [= <- <-]. split; [reflexivity|constructor].
  - unfold bind at 1. unfold bind at 1, keyRing_read at 1.
    destruct (getKeyFromCoinType (Service.coinType path) (keyRing w)) as [key|e] eqn:Ek;
      [|discriminate].
    unfold ret at 1. unfold bind at 1.
    destruct (forEachPush _ paths w) as [[ys|e] w''] eqn:El; [|discriminate].
    intros [= <- <-]. destruct (IH ys w'' eq_refl) as [-> HF].
    split; [reflexivity|]. constructor; [|exact HF].
    exists key. split; [exact Ek|reflexivity].
Qed.

(** C8. If the coin type of the chain is already set for the active record,
    [getKeyStoreBIP44Selectables] returns the empty list whatever the paths.
    Otherwise, on a known chain with the ring unlocked, it returns one entry
    per requested path, in the order of the request, each pairing the path
    with the bech32 address of the key derived for the path's coin type under
    the chain's account prefix; and whenever it returns at all, what it
    returns is such a list and the world is left as it was. *)
Theorem getKeyStoreBIP44Selectables_entries chainId paths w :
  (Keyring.isKeyStoreCoinTypeSet chainId (keyRing w) = true ->
   Service.getKeyStoreBIP44Selectables chainId paths w = (Ok [], w))
  /\ (forall ci ks,
        Keyring.isKeyStoreCoinTypeSet chainId (keyRing w) = false ->
        chains w !! chainId = Some ci ->
        status (keyRing w) = UNLOCKED ->
        keyStore (keyRing w) = Some ks ->
        Service.getKeyStoreBIP44Selectables chainId paths w
        = (Ok (map (fun path =>
                      (path,
                       toBech32 (address (deriveKey ks (Service.coinType path)))
                         (bech32PrefixAccAddr ci)))
                   paths), w))
  /\ (forall l w',
        Keyring.isKeyStoreCoinTypeSet chainId (keyRing w) = false ->
        Service.getKeyStoreBIP44Selectables chainId paths w = (Ok l, w') ->
        w' = w
        /\ length l = length paths
        /\ exists ci,
             chains w !! chainId = Some ci
             /\ Forall2
                  (fun path entry =>
                     exists key,
                       getKeyFromCoinType (Service.coinType path) (keyRing w) = Ok key
                       /\ entry = (path, toBech32 (address key) (bech32PrefixAccAddr ci)))
                  paths l).
Proof.
  split; [|split].
  - intros Hset. unfold Service.getKeyStoreBIP44Selectables, bind,
      Service.isKeyStoreCoinTypeSet, gets. rewrite Hset. reflexivity.
  - intros ci ks Hset Hc Hst Hks.
    unfold Service.getKeyStoreBIP44Selectables, bind at 1,
      Service.isKeyStoreCoinTypeSet, gets. rewrite Hset.
    unfold bind at 1. rewrite getChainInfo_lookup, Hc.
    induction paths as [|path paths IH]; [reflexivity|].
    simpl. unfold bind at 1.
    unfold bind at 1, keyRing_read at 1.
    rewrite (getKeyFromCoinType_unlocked _ _ _ Hst Hks). unfold ret at 1.
    unfold bind at 1. rewrite IH. reflexivity.
  - intros l w' Hset.
    unfold Service.getKeyStoreBIP44Selectables, bind at 1,
      Service.isKeyStoreCoinTypeSet, gets. rewrite Hset.
    unfold bind at 1. rewrite getChainInfo_lookup.
    destruct (chains w !! chainId) as [ci|]; [|discriminate].
    intros [-> HF]%selectables_loop_inv.
    split; [reflexivity|]. split; [symmetry; exact (Forall2_length _ _ _ HF)|].
    exists ci. split; [reflexivity|exact HF].
Qed.

End Selectables.

(** Two candidate paths for the hub on the unlocked record of the examples,
    and none once the record holds an override. *)
Lemma getKeyStoreBIP44Selectables_entries_witness :
  @Service.getKeyStoreBIP44Selectables Fixture.keySource Fixture.approving
     "cosmoshub-4" [{| Service.coinType := 1 |}; {| Service.coinType := 0 |}]
     Fixture.unlockedWorld
  = (Ok [({| Service.coinType := 1 |}, "cosmos1" ++ string_of_list_byte [x61; x01]);
         ({| Service.coinType := 0 |}, "cosmos1" ++ string_of_list_byte [x61])]%string,
     Fixture.unlockedWorld)
  /\ @Service.getKeyStoreBIP44Selectables Fixture.keySource Fixture.approving
       "cosmoshub-4" [{| Service.coinType := 1 |}]
       (Fixture.worldOf (Fixture.ringOf [Fixture.storeB] 0 true))
     = (Ok [], Fixture.worldOf (Fixture.ringOf [Fixture.storeB] 0 true)).
Proof.
  split.
  - exact (proj1 (proj2 (@getKeyStoreBIP44Selectables_entries Fixture.keySource
                    Fixture.approving "cosmoshub-4"
                    [{| Service.coinType := 1 |}; {| Service.coinType := 0 |}]
                    Fixture.unlockedWorld))
             Fixture.cosmoshub Fixture.storeA eq_refl eq_refl eq_refl eq_refl).
  - apply (proj1 (@getKeyStoreBIP44Selectables_entries Fixture.keySource
                    Fixture.approving "cosmoshub-4" _ _)).
    reflexivity.
Defined.

(** ** The fee configuration *)

Section FeeFacts.
Import Fee.
Context `{DecArith}.

Lemma step_atMostOne c op : atMostOne c -> atMostOne (step c op).
Proof.
  unfold atMostOne. destruct op; simpl; intros [E|E]; auto.
Qed.

Lemma run_atMostOne ops : forall c, atMostOne c -> atMostOne (run ops c).
Proof.
  unfold run. induction ops as [|op ops IH]; intros c Hc; simpl; [exact Hc|].
  apply IH, step_atMostOne, Hc.
Qed.

(** C9 (amended).  Starting from a new configuration, after any sequence of
    [setFeeType], [setManualFee], chain and gas changes at most one of the fee
    type and the manual fee is defined; [setFeeType] sets the fee type and
    clears the manual fee, [setManualFee] sets the manual fee and clears the
    fee type; and [getFeePrimitive] returns [undefined] when the chain has no
    fee currency, otherwise the manual fee if set, else the fee computed from
    the fee type (the gas price of the type, from the chain's steps or the
    default ones, times the gas, in the fee currency's minimal denomination),
    else [undefined]. *)
Theorem feeConfig_one_source_of_fee :
  (forall ops ci gas, atMostOne (run ops (new ci gas)))
  /\ (forall t c, _feeType (setFeeType t c) = t /\ _manualFee (setFeeType t c) = None)
  /\ (forall fee c,
        _manualFee (setManualFee fee c) = Some fee
        /\ _feeType (setManualFee fee c) = None)
  /\ (forall c, feeCurrency c = None -> getFeePrimitive c = Ok None)
  /\ (forall c cur fee,
        feeCurrency c = Some cur -> _manualFee c = Some fee ->
        getFeePrimitive c = Ok (Some fee))
  /\ (forall c cur t,
        feeCurrency c = Some cur -> _manualFee c = None -> _feeType c = Some t ->
        getFeePrimitive c
        = match decMulTruncate
                  (stepOf (default DefaultGasPriceStep (gasPriceStep (chainInfo c))) t)
                  (gasConfig_gas c) with
          | Ok a => Ok (Some {| denom := coinMinimalDenom cur; amount := a |})
          | Throw e => Throw e
          end)
  /\ (forall c, _manualFee c = None -> _feeType c = None -> getFeePrimitive c = Ok None).
Proof.
  split; [|split; [|split; [|split; [|split; [|split]]]]].
  - intros ops ci gas. apply run_atMostOne. left. reflexivity.
  - intros t c. split; reflexivity.
  - intros fee c. split; reflexivity.
  - intros c E. unfold getFeePrimitive. rewrite E. reflexivity.
  - intros c cur fee Ec Em. unfold getFeePrimitive. rewrite Ec, Em. reflexivity.
  - intros c cur t Ec Em Et.
    unfold getFeePrimitive, getFeeTypePrimitive, feeType. rewrite Ec, Em, Et.
    destruct (gasPriceStep (chainInfo c)); simpl;
      destruct (decMulTruncate _ _); reflexivity.
  - intros c Em Et. unfold getFeePrimitive, feeType. rewrite Em, Et.
    destruct (feeCurrency c); reflexivity.
Qed.

End FeeFacts.

(** A manual fee and then the average fee type on the hub: the manual fee is
    what [getFeePrimitive] returns, and after [setFeeType] the computed one,
    0.025 times 80000 gas. *)
Lemma feeConfig_one_source_of_fee_witness :
  @Fee.getFeePrimitive Fixture.dec
     (Fee.setManualFee Fixture.manual (Fee.new Fixture.hubFees 80000))
  = Ok (Some Fixture.manual)
  /\ @Fee.getFeePrimitive Fixture.dec
       (Fee.setFeeType (Some Fee.average)
          (Fee.setManualFee Fixture.manual (Fee.new Fixture.hubFees 80000)))
     = Ok (Some {| Fee.denom := "uatom"; Fee.amount := "2000" |}).
Proof.
  destruct (@feeConfig_one_source_of_fee Fixture.dec)
    as (_ & _ & _ & _ & Hmanual & Htype & _).
  split.
  - apply (Hmanual _ Fixture.uatom); reflexivity.
  - rewrite (Htype _ Fixture.uatom Fee.average); reflexivity.
Defined.

(** C9 as stated fails: on a chain without a fee currency a manual fee is
    set, and [getFeePrimitive] does not return it. *)
Lemma getFeePrimitive_manual_fee_not_returned :
  ~ (forall (c : Fee.FeeConfig) (fee : Fee.CoinPrimitive),
       Fee._manualFee c = Some fee ->
       @Fee.getFeePrimitive Fixture.dec c = Ok (Some fee)).
Proof.
  intros Hclaim.
  specialize (Hclaim (Fee.setManualFee Fixture.manual (Fee.new Fixture.noFeeCurrency 80000))
                     Fixture.manual eq_refl).
  discriminate Hclaim.
Qed.

(** ** Broadcasting from the account store *)

Section AccountFacts.
Import Account.
Context `{Remote}.

(** The two guards of [broadcastMsgs]. *)
Lemma broadcastMsgs_not_loaded msgs fee memo mode s :
  walletStatus s <> Loaded ->
  broadcastMsgs msgs fee memo mode s
  = (Throw (JsError ("Wallet is not loaded: " ++ WalletStatus_toString (walletStatus s))), s).
Proof.
  intros Hs. unfold broadcastMsgs, bind, get.
  destruct (walletStatus s); [reflexivity|congruence|reflexivity].
Qed.

Lemma broadcastMsgs_no_msg fee memo mode s :
  walletStatus s = Loaded ->
  broadcastMsgs [] fee memo mode s = (Throw (JsError "There is no msg to send"), s).
Proof.
  intros Hs. unfold broadcastMsgs, bind, get. rewrite Hs. reflexivity.
Qed.

(** [sendMsgs] in terms of the broadcast it wraps. *)
Lemma sendMsgs_unfold type msgs fee memo s :
  sendMsgs type msgs fee memo s =
  match broadcastMsgs msgs fee memo (broadcastMode s) (setIsSendingMsg (Some type) s) with
  | (Ok txHash, s') => (Ok tt, addCall (CallTraceTx (rpc s') txHash) s')
  | (Throw e, s') => (Throw e, setIsSendingMsg None s')
  end.
Proof.
  unfold sendMsgs, bind at 1, modify at 1. unfold bind at 1, tryCatch.
  unfold bind at 1, get at 1. simpl.
  destruct (broadcastMsgs _ _ _ _ _) as [[txHash|e] s']; reflexivity.
Qed.

(** C10. With the wallet not Loaded, or with no message, [broadcastMsgs]
    throws and leaves the store as it was: no account was fetched, no sign
    document or transaction built, nothing signed or sent.  And when the
    broadcast inside [sendMsgs] throws, [sendMsgs] throws the same error with
    the [isSendingMsg] flag back to [false] and nothing else changed beyond
    what the broadcast did. *)
Theorem broadcast_guards_and_reset msgs fee memo s :
  (walletStatus s <> Loaded \/ msgs = [] ->
   forall mode,
     exists e, broadcastMsgs msgs fee memo mode s = (Throw e, s)
               /\ calls (snd (broadcastMsgs msgs fee memo mode s)) = calls s)
  /\ (forall type e s',
        broadcastMsgs msgs fee memo (broadcastMode s) (setIsSendingMsg (Some type) s)
          = (Throw e, s') ->
        sendMsgs type msgs fee memo s = (Throw e, setIsSendingMsg None s')
        /\ isSendingMsg (snd (sendMsgs type msgs fee memo s)) = None)
  /\ (walletStatus s <> Loaded \/ msgs = [] ->
      forall type,
        exists e, sendMsgs type msgs fee memo s = (Throw e, setIsSendingMsg None s)).
Proof.
  assert (Hguard : walletStatus s <> Loaded \/ msgs = [] ->
                   forall mode s0, walletStatus s0 = walletStatus s ->
                     exists e, broadcastMsgs msgs fee memo mode s0 = (Throw e, s0)).
  { intros Hg mode s0 Hs0.
    destruct (WalletStatus_eqb (walletStatus s0) Loaded) eqn:El.
    - assert (walletStatus s0 = Loaded) as Hl by (destruct (walletStatus s0); easy).
      destruct Hg as [Hn| ->]; [congruence|].
      eexists. apply broadcastMsgs_no_msg, Hl.
    - eexists. apply broadcastMsgs_not_loaded. intros Hl. rewrite Hl in El. discriminate. }
  split; [|split].
  - intros Hg mode. destruct (Hguard Hg mode s eq_refl) as [e He].
    exists e. rewrite He. split; reflexivity.
  - intros type e s' Hb. rewrite sendMsgs_unfold, Hb. split; reflexivity.
  - intros Hg type.
    destruct (Hguard Hg (broadcastMode s) (setIsSendingMsg (Some type) s) eq_refl)
      as [e He].
    exists e. rewrite sendMsgs_unfold. simpl in He |- *. rewrite He.
    reflexivity.
Qed.

End AccountFacts.

(** A wallet that is still loading is asked to send: the broadcast is
    refused, nothing is called, the flag is back to [false].  A loaded wallet
    whose broadcast the network refuses: same error, flag back to [false]. *)
Lemma broadcast_guards_and_reset_witness :
  (exists e,
     @Account.broadcastMsgs Fixture.remote [Fixture.sendMsg] Fixture.stdFee ""
        Account.sync (Fixture.account Account.Loading)
     = (Throw e, Fixture.account Account.Loading))
  /\ fst (@Account.sendMsgs Fixture.failingRemote Account.send [Fixture.sendMsg]
            Fixture.stdFee "" (Fixture.account Account.Loaded))
     = Throw (ExternalError "broadcast failed")
  /\ Account.isSendingMsg
       (snd (@Account.sendMsgs Fixture.failingRemote Account.send [Fixture.sendMsg]
               Fixture.stdFee "" (Fixture.account Account.Loaded)))
     = None.
Proof.
  split.
  - assert (Hn : Account.walletStatus (Fixture.account Account.Loading) <> Account.Loaded)
      by discriminate.
    destruct (proj1 (@broadcast_guards_and_reset Fixture.remote [Fixture.sendMsg]
                       Fixture.stdFee "" (Fixture.account Account.Loading))
                (or_introl Hn) Account.sync) as (e & He & _).
    exists e. exact He.
  - destruct (proj1 (proj2 (@broadcast_guards_and_reset Fixture.failingRemote
                       [Fixture.sendMsg] Fixture.stdFee ""
                       (Fixture.account Account.Loaded)))
                Account.send _ _ eq_refl) as [Hs Hflag].
    split; [rewrite Hs; reflexivity|exact Hflag].
Defined.

(** * Further properties *)

(** ** Signing and unlocking behind the approval *)

Section ApprovalOutcomes.
Import Keyring Background Requests.
Context `{KeySource} `{Collaborators}.

Lemma signingSteps_addEvent_wait i w :
  signingSteps (addEvent (EvWaitApprove i) w) = signingSteps w.
Proof.
  unfold signingSteps, addEvent; simpl. rewrite omap_app; simpl. apply app_nil_r.
Qed.

Lemma pendingRequests_addEvent_wait i w :
  pendingRequests (addEvent (EvWaitApprove i) w) = pendingRequests w ++ [i].
Proof. unfold pendingRequests, addEvent; simpl. rewrite omap_app. reflexivity. Qed.

(** X1. A rejected sign request is never signed: the call fails with the
    rejection, one Pending request carrying the chain and the message in hex
    was recorded, and neither a signing step nor the key ring was touched. *)
Theorem requestSign_rejected_never_signs env chainId message w e :
  userDecision (signRequest env chainId message) (keyRing w) = Throw e ->
  fst (Service.requestSign env chainId message false w) = Throw e
  /\ signingSteps (snd (Service.requestSign env chainId message false w)) = signingSteps w
  /\ pendingRequests (snd (Service.requestSign env chainId message false w))
     = pendingRequests w ++ [signRequest env chainId message]
  /\ keyRing (snd (Service.requestSign env chainId message false w)) = keyRing w.
Proof.
  intros Hd.
  assert (E : Service.requestSign env chainId message false w
              = (Throw e, addEvent (EvWaitApprove (signRequest env chainId message)) w)).
  { unfold Service.requestSign, bind at 1, waitApprove.
    fold (signRequest env chainId message). rewrite Hd. reflexivity. }
  rewrite E. simpl. split; [reflexivity|].
  split; [apply signingSteps_addEvent_wait|].
  split; [apply pendingRequests_addEvent_wait|reflexivity].
Qed.

(** X2. An approved sign request signs the message that was submitted,
    whatever payload the approval carries: the call continues as the direct
    [sign] from the world the interaction left, and on a known chain the log
    grows by the Pending request followed by one signing step for the
    submitted message. *)
Theorem requestSign_approved_signs_submitted env chainId message w v kr' :
  userDecision (signRequest env chainId message) (keyRing w) = Ok (v, kr') ->
  Service.requestSign env chainId message false w
  = Service.sign env chainId message
      (setKeyRing kr' (addEvent (EvWaitApprove (signRequest env chainId message)) w))
  /\ (forall ci,
        chains w !! chainId = Some ci ->
        fst (Service.requestSign env chainId message false w)
        = Keyring.sign chainId (bip44_coinType ci) message kr'
        /\ trace (snd (Service.requestSign env chainId message false w))
           = trace w ++ [EvWaitApprove (signRequest env chainId message);
                         EvSign chainId (bip44_coinType ci) message]).
Proof.
  intros Hd.
  assert (E : Service.requestSign env chainId message false w
              = Service.sign env chainId message
                  (setKeyRing kr'
                     (addEvent (EvWaitApprove (signRequest env chainId message)) w))).
  { unfold Service.requestSign, bind at 1, waitApprove.
    fold (signRequest env chainId message). rewrite Hd. reflexivity. }
  split; [exact E|]. intros ci Hc. rewrite E, sign_unfold. simpl. rewrite Hc. simpl.
  split; [reflexivity|]. rewrite <- app_assoc. reflexivity.
Qed.

(** X3. On a LOCKED ring [enable] records exactly one unlock request and
    returns the status the ring has once the interaction is resolved,
    whether or not that is UNLOCKED; when the user rejects, it fails with
    the rejection and the ring stays as it was. *)
Theorem enable_locked_follows_interaction env w :
  status (keyRing w) = LOCKED ->
  (forall v kr',
     userDecision (unlockRequest env) (keyRing w) = Ok (v, kr') ->
     Service.enable env w
     = (Ok (status kr'), setKeyRing kr' (addEvent (EvWaitApprove (unlockRequest env)) w)))
  /\ (forall e,
        userDecision (unlockRequest env) (keyRing w) = Throw e ->
        Service.enable env w
        = (Throw e, addEvent (EvWaitApprove (unlockRequest env)) w))
  /\ pendingRequests (snd (Service.enable env w))
     = pendingRequests w ++ [unlockRequest env].
Proof.
  intros Hl. rewrite (enable_LOCKED env w Hl).
  unfold bind, waitApprove. fold (unlockRequest env).
  destruct (userDecision (unlockRequest env) (keyRing w)) as [[v kr']|e]; simpl.
  - split; [intros v0 kr0 [= <- <-]; reflexivity|].
    split; [intros e [=]|]. apply pendingRequests_addEvent_wait.
  - split; [intros v0 kr0 [=]|].
    split; [intros e0 [= <-]; reflexivity|]. apply pendingRequests_addEvent_wait.
Qed.

(** What [enable] returns is the status of the ring it leaves. *)
Lemma enable_returns_final_status env w st w' :
  Service.enable env w = (Ok st, w') -> status (keyRing w') = st.
Proof.
  assert (Hwait : forall w0,
            (waitApprove env "/unlock" EnableKeyRingMsg_type JEmptyObject ;;;
             keyRing_status) w0 = (Ok st, w') -> status (keyRing w') = st).
  { intros w0. unfold bind, waitApprove.
    destruct (userDecision _ _) as [[v kr']|e]; [|discriminate].
    unfold keyRing_status, gets. intros [= <- <-]. reflexivity. }
  destruct (status (keyRing w)) eqn:Hs.
  - rewrite (enable_NOTLOADED env w Hs). cbv zeta.
    destruct (KeyRingStatus_eqb _ LOCKED); [apply Hwait|].
    intros [= <- <-]. reflexivity.
  - rewrite (enable_EMPTY env w Hs). discriminate.
  - rewrite (enable_LOCKED env w Hs). apply Hwait.
  - rewrite (enable_UNLOCKED env w Hs). intros [= <- <-]. exact Hs.
Qed.

(** X4. [enable] returns the status the ring has when the call returns, and
    enabling again after it returned UNLOCKED changes nothing and asks the
    user nothing, for whichever page asks. *)
Theorem enable_again_is_noop env w st w' :
  Service.enable env w = (Ok st, w') ->
  status (keyRing w') = st
  /\ (st = UNLOCKED -> forall env', Service.enable env' w' = (Ok UNLOCKED, w')).
Proof.
  intros He. pose proof (enable_returns_final_status env w st w' He) as Hst.
  split; [exact Hst|]. intros -> env'. apply enable_UNLOCKED, Hst.
Qed.

(** X5. [getKeyStoreBIP44Selectables] without a coin type set: an unknown
    chain fails the call even for an empty list of paths; a known chain with
    no path returns the empty list even when the ring is locked; and a path
    whose key cannot be derived fails the whole call with that path's error,
    no partial list being returned.  The world is never changed. *)
Theorem getKeyStoreBIP44Selectables_all_or_nothing chainId w :
  Keyring.isKeyStoreCoinTypeSet chainId (keyRing w) = false ->
  (chains w !! chainId = None ->
   forall paths,
     Service.getKeyStoreBIP44Selectables chainId paths w = (Throw ChainUnknownError, w))
  /\ (forall ci,
        chains w !! chainId = Some ci ->
        Service.getKeyStoreBIP44Selectables chainId [] w = (Ok [], w))
  /\ (forall ci before path after e,
        chains w !! chainId = Some ci ->
        Forall (fun p => exists key,
                  getKeyFromCoinType (Service.coinType p) (keyRing w) = Ok key) before ->
        getKeyFromCoinType (Service.coinType path) (keyRing w) = Throw e ->
        Service.getKeyStoreBIP44Selectables chainId (before ++ path :: after) w
        = (Throw e, w)).
Proof.
  intros Hset.
  assert (Hhead : forall paths,
            Service.getKeyStoreBIP44Selectables chainId paths w
            = (let! chainInfo := getChainInfo chainId in
               forEachPush
                 (fun path =>
                    let! key := keyRing_read (getKeyFromCoinType (Service.coinType path)) in
                    ret (path, toBech32 (address key) (bech32PrefixAccAddr chainInfo)))
                 paths) w).
  { intros paths. unfold Service.getKeyStoreBIP44Selectables, bind at 1,
      Service.isKeyStoreCoinTypeSet, gets. rewrite Hset. reflexivity. }
  split; [|split].
  - intros Hc paths. rewrite Hhead. unfold bind. rewrite getChainInfo_lookup, Hc.
    reflexivity.
  - intros ci Hc. rewrite Hhead. unfold bind. rewrite getChainInfo_lookup, Hc.
    reflexivity.
  - intros ci before path after e Hc Hbefore Hfail.
    rewrite Hhead. unfold bind at 1. rewrite getChainInfo_lookup, Hc.
    induction Hbefore as [|p before [key Hk] _ IH]; simpl.
    + unfold bind at 1. unfold bind at 1, keyRing_read at 1. rewrite Hfail. reflexivity.
    + unfold bind at 1. unfold bind at 1, keyRing_read at 1. rewrite Hk.
      unfold ret at 1. unfold bind at 1. rewrite IH. reflexivity.
Qed.

End ApprovalOutcomes.

(** ** The enable and get-key handlers *)

Section HandlerOrder.
Import Keyring Background Handler KeyHandler.
Context `{KeySource} `{Collaborators} `{AddressCodec}.

(** X6. The enable handler checks, in this order, the origin's permission,
    then that the chain is known, and only then enables: a disallowed origin
    or an unknown chain ends the request with the world untouched (a ring
    that was not loaded is not restored, no unlock request is recorded), and
    otherwise the handler is the service's [enable]. *)
Theorem handleEnableKeyRingMsg_order env msg w :
  (isAllowed w (enable_origin msg) (enable_chainId msg) = false ->
   handleEnableKeyRingMsg keeper env msg w = (Throw OriginNotAllowedError, w))
  /\ (isAllowed w (enable_origin msg) (enable_chainId msg) = true ->
      chains w !! enable_chainId msg = None ->
      handleEnableKeyRingMsg keeper env msg w = (Throw ChainUnknownError, w))
  /\ (forall ci,
        isAllowed w (enable_origin msg) (enable_chainId msg) = true ->
        chains w !! enable_chainId msg = Some ci ->
        handleEnableKeyRingMsg keeper env msg w
        = Service.enable {| extensionBaseURL := extensionBaseURL env |} w).
Proof.
  unfold handleEnableKeyRingMsg, keeper; simpl.
  split; [|split].
  - intros Ha. unfold bind at 1. rewrite checkAccessOrigin_unfold, Ha. reflexivity.
  - intros Ha Hc. unfold bind at 1. rewrite checkAccessOrigin_unfold, Ha.
    unfold bind at 1. rewrite getChainInfo_lookup, Hc. reflexivity.
  - intros ci Ha Hc. unfold bind at 1. rewrite checkAccessOrigin_unfold, Ha.
    unfold bind at 1. rewrite getChainInfo_lookup, Hc.
    unfold bind, ret.
    destruct (Service.enable _ w) as [[st|e] w']; reflexivity.
Qed.

(** The get-key handler on the registered keeper, step by step. *)
Lemma handleGetKeyMsg_unfold env msg w :
  handleGetKeyMsg keeper access env msg w =
  (if isAllowed w (getKey_origin msg) (getKey_chainId msg) then
     match chains w !! getKey_chainId msg with
     | None => Throw ChainUnknownError
     | Some ci =>
         match Keyring.getKey (getKey_chainId msg) (bip44_coinType ci) (keyRing w) with
         | Throw e => Throw e
         | Ok key =>
             Ok {| res_name :=
                     match keyStore (keyRing w) with
                     | Some ks => default "" (ks_meta ks !! "name")
                     | None => ""
                     end;
                   res_algo := "secp256k1";
                   res_pubKeyHex := bytesToHex (pubKey key);
                   res_addressHex := bytesToHex (address key);
                   res_bech32Address :=
                     addressToBech32 (address key) (bech32PrefixAccAddr ci) |}
         end
     end
   else Throw OriginNotAllowedError, w).
Proof.
  unfold handleGetKeyMsg, keeper, access; simpl.
  unfold bind at 1. rewrite checkAccessOrigin_unfold.
  destruct (isAllowed w _ _); [|reflexivity].
  unfold bind at 1. rewrite getKey_lookup.
  destruct (chains w !! getKey_chainId msg) as [ci|] eqn:Hc; [|reflexivity].
  destruct (Keyring.getKey _ _ _) as [key|e]; [|reflexivity].
  unfold bind at 1, getKeyStoreMeta, gets. unfold bind at 1.
  rewrite getChainInfo_lookup, Hc. reflexivity.
Qed.

(** X7. The get-key handler answers only an allowed origin and never changes
    the world; and when the handler's address encoder agrees with the
    service's, the bech32 address it reports is one that the address check
    of a later request-sign for the same chain accepts. *)
Theorem handleGetKeyMsg_address_passes_check env msg w :
  (isAllowed w (getKey_origin msg) (getKey_chainId msg) = false ->
   handleGetKeyMsg keeper access env msg w = (Throw OriginNotAllowedError, w))
  /\ snd (handleGetKeyMsg keeper access env msg w) = w
  /\ (forall response,
        (forall a prefix, addressToBech32 a prefix = toBech32 a prefix) ->
        fst (handleGetKeyMsg keeper access env msg w) = Ok response ->
        Service.checkBech32Address (getKey_chainId msg) (res_bech32Address response) w
        = (Ok tt, w)).
Proof.
  rewrite handleGetKeyMsg_unfold. simpl. split; [|split].
  - intros ->. reflexivity.
  - reflexivity.
  - intros response Hagree.
    destruct (isAllowed w _ _); [|discriminate].
    rewrite checkBech32Address_unfold.
    destruct (chains w !! getKey_chainId msg) as [ci|]; [|discriminate].
    destruct (Keyring.getKey _ _ _) as [key|e]; [|discriminate].
    intros [= <-]. simpl. rewrite Hagree, String.eqb_refl. reflexivity.
Qed.

End HandlerOrder.

(** ** More on the fee configuration *)

Section FeeMore.
Import Fee FeeChoice.
Context `{DecArith}.

(** X8. [getFeePrimitive] fails only where the decimal arithmetic fails, on a
    configuration with a fee currency, no manual fee and a fee type; the
    "Fee currency not set" error of [getFeeTypePrimitive] cannot come out of
    it.  So does [toStdFee]; and with arithmetic that never fails both always
    return. *)
Theorem getFeePrimitive_fails_only_in_arithmetic c :
  (forall e,
     getFeePrimitive c = Throw e \/ toStdFee c = Throw e ->
     exists cur t,
       feeCurrency c = Some cur /\ _manualFee c = None /\ _feeType c = Some t
       /\ decMulTruncate
            (stepOf (default DefaultGasPriceStep (gasPriceStep (chainInfo c))) t)
            (gasConfig_gas c) = Throw e)
  /\ (forall t, feeCurrency c = None ->
        getFeeTypePrimitive c t = Throw (JsError "Fee currency not set")
        /\ getFeePrimitive c = Ok None)
  /\ ((forall p g, exists a, decMulTruncate p g = Ok a) ->
      (exists r, getFeePrimitive c = Ok r) /\ (exists fee, toStdFee c = Ok fee)).
Proof.
  assert (Hprim : forall e, getFeePrimitive c = Throw e ->
            exists cur t,
              feeCurrency c = Some cur /\ _manualFee c = None /\ _feeType c = Some t
              /\ decMulTruncate
                   (stepOf (default DefaultGasPriceStep (gasPriceStep (chainInfo c))) t)
                   (gasConfig_gas c) = Throw e).
  { intros e. unfold getFeePrimitive, getFeeTypePrimitive, feeType.
    destruct (feeCurrency c) as [cur|]; [|discriminate].
    destruct (_manualFee c); [discriminate|].
    destruct (_feeType c) as [t|]; [|discriminate].
    destruct (gasPriceStep (chainInfo c)); simpl;
      destruct (decMulTruncate _ _) eqn:E; try discriminate;
      intros [= <-]; exists cur, t; auto. }
  split; [|split].
  - intros e [Hp|Hs]; [exact (Hprim e Hp)|].
    apply Hprim. unfold toStdFee in Hs.
    destruct (getFeePrimitive c) as [[p|]|e']; [discriminate|discriminate|].
    injection Hs as ->. reflexivity.
  - intros t Hc. unfold getFeePrimitive, getFeeTypePrimitive. rewrite Hc. auto.
  - intros Htotal.
    assert (Hok : exists r, getFeePrimitive c = Ok r).
    { destruct (getFeePrimitive c) as [r|e] eqn:E; [eauto|].
      destruct (Hprim e eq_refl) as (cur & t & _ & _ & _ & Hd).
      destruct (Htotal (stepOf (default DefaultGasPriceStep (gasPriceStep (chainInfo c))) t)
                       (gasConfig_gas c)) as [a Ha].
      congruence. }
    split; [exact Hok|]. destruct Hok as [r Hr]. unfold toStdFee. rewrite Hr.
    destruct r; eauto.
Qed.

Lemma run_cons op ops c : run (op :: ops) c = run ops (step c op).
Proof. reflexivity. Qed.

(** X9. After any sequence of calls the two fields are those written by the
    last [setFeeType] or [setManualFee] of the sequence, and unchanged when
    there is none: chain and gas changes never touch the choice, and a later
    setter always discards what an earlier one chose. *)
Theorem last_setter_decides ops c :
  (_feeType (run ops c), _manualFee (run ops c))
  = default (_feeType c, _manualFee c) (lastChoice ops).
Proof.
  revert c. induction ops as [|op ops IH]; intros c; [reflexivity|].
  rewrite run_cons, IH. simpl.
  destruct (lastChoice ops); [reflexivity|].
  destruct op; reflexivity.
Qed.

(** X10. Whatever [toStdFee] returns has the gas of the gas configuration
    and at most one coin; the amount is empty exactly when no fee resolves,
    which includes every chain without a fee currency, even with a manual
    fee set; and a coin that is not the manual fee is in the minimal
    denomination of the chain's first fee currency. *)
Theorem toStdFee_amount c fee :
  toStdFee c = Ok fee ->
  fee_gas fee = numberToString (gasConfig_gas c)
  /\ length (fee_amount fee) <= 1
  /\ (fee_amount fee = [] <-> getFeePrimitive c = Ok None)
  /\ (feeCurrency c = None -> fee_amount fee = [])
  /\ (forall coin, In coin (fee_amount fee) ->
        _manualFee c = Some coin
        \/ exists cur, feeCurrency c = Some cur /\ denom coin = coinMinimalDenom cur).
Proof.
  unfold toStdFee.
  destruct (getFeePrimitive c) as [[p|]|e] eqn:Hp; [| |discriminate];
    intros [= <-]; simpl.
  - split; [reflexivity|]. split; [lia|].
    split; [split; discriminate|].
    split.
    + intros Hc. unfold getFeePrimitive in Hp. rewrite Hc in Hp. discriminate.
    + intros coin [<-|[]].
      unfold getFeePrimitive, getFeeTypePrimitive, feeType in Hp.
      destruct (feeCurrency c) as [cur|]; [|discriminate].
      destruct (_manualFee c) as [m|]; [left; congruence|].
      destruct (_feeType c) as [t|]; [|discriminate].
      destruct (decMulTruncate _ _); [|discriminate].
      injection Hp as <-. right. exists cur. auto.
  - split; [reflexivity|]. split; [lia|].
    split; [split; reflexivity|].
    split; [reflexivity|]. intros coin [].
Qed.

End FeeMore.

(** ** More on broadcasting *)

Section BroadcastMore.
Import Account Wallet.
Context `{Remote}.

(** Past its two guards, [broadcastMsgs] is a chain of calls, each made only
    if the one before answered. *)
Lemma broadcastMsgs_cases msgs fee memo mode s :
  walletStatus s = Loaded -> msgs <> [] ->
  broadcastMsgs msgs fee memo mode s =
  let fetch := CallFetchAccount (rest s) (bech32Address s) in
  match fetchFromRest (rest s) (bech32Address s) with
  | Throw e => (Throw e, addCalls [fetch] s)
  | Ok account =>
      let doc := makeSignDoc msgs fee (chainId s) memo (accountNumber account)
                   (sequence account) in
      let sign := CallSign (chainId s) (bech32Address s) doc in
      if keplrPresent then
        match keplrSign (chainId s) (bech32Address s) doc with
        | Throw e => (Throw e, addCalls [fetch; CallMakeSignDoc doc; sign] s)
        | Ok response =>
            let tx := makeStdTx (signed response) (signature response) in
            (keplrSendTx (chainId s) tx mode,
             addCalls [fetch; CallMakeSignDoc doc; sign; CallMakeStdTx tx;
                       CallSendTx (chainId s) tx mode] s)
        end
      else (Throw (TypeError "Cannot read properties of undefined"),
            addCalls [fetch; CallMakeSignDoc doc] s)
  end.
Proof.
  intros Hl Hm. unfold broadcastMsgs, bind at 1, get at 1. rewrite Hl. simpl.
  destruct msgs as [|m msgs]; [congruence|]. simpl.
  unfold bind at 1, call at 1.
  destruct (fetchFromRest _ _) as [account|e]; [|reflexivity].
  unfold bind at 1, modify at 1. unfold bind at 1, withKeplr.
  destruct keplrPresent; [|reflexivity].
  unfold call at 1.
  destruct (keplrSign _ _ _) as [response|e]; [|reflexivity].
  unfold bind, modify, call. reflexivity.
Qed.

(** X11. Whatever the outcome of [broadcastMsgs], it changes nothing of the
    store but the log of calls, and a transaction is only ever sent after
    the wallet signed: every [sendTx] in the calls it made carries the
    transaction built from the document and signature the wallet returned,
    for the store's chain and the requested mode; and nothing is asked of
    the wallet unless the account was fetched. *)
Theorem broadcastMsgs_sends_only_signed msgs fee memo mode s :
  exists made,
    snd (broadcastMsgs msgs fee memo mode s) = addCalls made s
    /\ (forall c tx m,
          In (CallSendTx c tx m) made ->
          exists doc response,
            In (CallSign (chainId s) (bech32Address s) doc) made
            /\ keplrSign (chainId s) (bech32Address s) doc = Ok response
            /\ tx = makeStdTx (signed response) (signature response)
            /\ c = chainId s /\ m = mode)
    /\ (forall c a doc,
          In (CallSign c a doc) made ->
          exists account,
            fetchFromRest (rest s) (bech32Address s) = Ok account
            /\ doc = makeSignDoc msgs fee (chainId s) memo (accountNumber account)
                       (sequence account)).
Proof.
  destruct (WalletStatus_eqb (walletStatus s) Loaded) eqn:El.
  2:{ exists []. rewrite broadcastMsgs_not_loaded
        by (intros Hl; rewrite Hl in El; discriminate).
      split; [reflexivity|]. split; intros; contradiction. }
  assert (Hl : walletStatus s = Loaded) by (destruct (walletStatus s); easy).
  destruct msgs as [|m0 msgs'] eqn:Em.
  { exists []. rewrite (broadcastMsgs_no_msg fee memo mode s Hl).
    split; [reflexivity|]. split; intros; contradiction. }
  rewrite <- Em. assert (Hne : msgs <> []) by (rewrite Em; discriminate).
  rewrite (broadcastMsgs_cases msgs fee memo mode s Hl Hne). cbv zeta.
  destruct (fetchFromRest _ _) as [account|e] eqn:Ef.
  2:{ eexists. split; [reflexivity|].
      split; simpl; intros; intuition discriminate. }
  destruct keplrPresent.
  2:{ eexists. split; [reflexivity|].
      split; simpl; intros; intuition discriminate. }
  destruct (keplrSign _ _ _) as [response|e] eqn:Es.
  - eexists. split; [reflexivity|]. split.
    + intros c tx m. simpl. intros Hin.
      destruct Hin as [Hin|[Hin|[Hin|[Hin|[Hin|[]]]]]]; try discriminate.
      injection Hin as <- <- <-.
      eexists _, response. split; [right; right; left; reflexivity|].
      split; [exact Es|]. auto.
    + intros c a doc. simpl. intros Hin.
      destruct Hin as [Hin|[Hin|[Hin|[Hin|[Hin|[]]]]]]; try discriminate.
      injection Hin as <- <- <-. exists account. auto.
  - eexists. split; [reflexivity|]. split.
    + intros c tx m. simpl. intros Hin.
      destruct Hin as [Hin|[Hin|[Hin|[]]]]; discriminate.
    + intros c a doc. simpl. intros Hin.
      destruct Hin as [Hin|[Hin|[Hin|[]]]]; try discriminate.
      injection Hin as <- <- <-. exists account. auto.
Qed.

(** X12. When every collaborator answers, [sendMsgs] makes exactly six
    calls, in this order: the account fetch, the sign document built from
    the fetched number and sequence, the wallet's signature, the transaction
    built from what the wallet returned, its broadcast in the store's own
    broadcast mode, and the start of the tracer on the returned hash.  The
    [isSendingMsg] flag then holds the kind of message until the tracer's
    callback clears it. *)
Theorem sendMsgs_success_sequence type msgs fee memo s account response txHash :
  walletStatus s = Loaded -> msgs <> [] -> keplrPresent = true ->
  fetchFromRest (rest s) (bech32Address s) = Ok account ->
  let doc := makeSignDoc msgs fee (chainId s) memo (accountNumber account)
               (sequence account) in
  keplrSign (chainId s) (bech32Address s) doc = Ok response ->
  let tx := makeStdTx (signed response) (signature response) in
  keplrSendTx (chainId s) tx (broadcastMode s) = Ok txHash ->
  sendMsgs type msgs fee memo s
  = (Ok tt,
     addCalls [CallFetchAccount (rest s) (bech32Address s);
               CallMakeSignDoc doc;
               CallSign (chainId s) (bech32Address s) doc;
               CallMakeStdTx tx;
               CallSendTx (chainId s) tx (broadcastMode s);
               CallTraceTx (rpc s) txHash]
       (setIsSendingMsg (Some type) s))
  /\ isSendingMsg (snd (sendMsgs type msgs fee memo s)) = Some type
  /\ isSendingMsg (snd (onTraced (snd (sendMsgs type msgs fee memo s)))) = None.
Proof.
  intros Hl Hne Hk Hf doc Hs tx Hsend.
  assert (E : sendMsgs type msgs fee memo s
              = (Ok tt,
                 addCalls [CallFetchAccount (rest s) (bech32Address s);
                           CallMakeSignDoc doc;
                           CallSign (chainId s) (bech32Address s) doc;
                           CallMakeStdTx tx;
                           CallSendTx (chainId s) tx (broadcastMode s);
                           CallTraceTx (rpc s) txHash]
                   (setIsSendingMsg (Some type) s))).
  { rewrite sendMsgs_unfold.
    rewrite (broadcastMsgs_cases msgs fee memo (broadcastMode s)
               (setIsSendingMsg (Some type) s) Hl Hne).
    subst doc tx. unfold bech32Address in *. simpl.
    rewrite Hf, Hk, Hs, Hsend. reflexivity. }
  rewrite E. repeat split.
Qed.

End BroadcastMore.

(** ** Initialising the account store *)

Section InitFacts.
Import Account Wallet.
Context `{Remote} `{Keplr}.

(** [init] past its first test, answer by answer. *)
Lemma init_cases s :
  walletStatus (inner s) <> NotExist ->
  init s =
  let chain := chainId (inner s) in
  let s1 := setInner (setWalletStatus Loading (inner s)) (addListener s) in
  if keplrPresent then
    match (if opts_suggestChain s then experimentalSuggestChain chain else Ok tt) with
    | Throw e => (Throw e, s1)
    | Ok _ =>
        match keplrEnable chain with
        | Throw e => (Throw e, s1)
        | Ok _ =>
            match keplrGetKey chain with
            | Throw e => (Throw e, s1)
            | Ok key =>
                let s2 :=
                  setInner (setName (key_name key)
                              (setBech32Address (key_bech32Address key) (inner s1))) s1 in
                match fromHex (key_pubKeyHex key) with
                | Throw e => (Throw e, s2)
                | Ok pk =>
                    (Ok tt, setInner (setWalletStatus Loaded (inner s2)) (setPubKey pk s2))
                end
            end
        end
    end
  else (Ok tt, setInner (setWalletStatus NotExist (inner s1)) s1).
Proof.
  intros Hn. unfold init, bind at 1, get at 1.
  destruct (WalletStatus_eqb (walletStatus (inner s)) NotExist) eqn:E.
  { exfalso. apply Hn. destruct (walletStatus (inner s)); easy. }
  unfold bind at 1, modify at 1. unfold bind at 1, modify at 1.
  destruct keplrPresent; simpl; [|reflexivity].
  unfold enable, bind, get, answer, modify, ret. simpl.
  destruct (opts_suggestChain s);
    [destruct (experimentalSuggestChain _) as [[]|]; [|reflexivity]|];
    (destruct (keplrEnable _) as [[]|]; [|reflexivity]);
    (destruct (keplrGetKey _) as [key|]; [|reflexivity]);
    destruct (fromHex _); reflexivity.
Qed.


(** Where a failed [init] leaves the store. *)
Lemma init_failure_state s e :
  fst (init s) = Throw e ->
  walletStatus (inner (snd (init s))) = Loading
  /\ calls (inner (snd (init s))) = calls (inner s).
Proof.
  intros Hf.
  assert (Hn : walletStatus (inner s) <> NotExist).
  { intros Hn. unfold init, bind, get in Hf. rewrite Hn in Hf. discriminate. }
  revert Hf. rewrite (init_cases s Hn). cbv zeta.
  destruct keplrPresent;
    [destruct (if opts_suggestChain s then _ else _) as [[]|e1];
     [destruct (keplrEnable _) as [[]|e2];
      [destruct (keplrGetKey _) as [key|e3];
       [destruct (fromHex _) as [pk|e4]|]|]|]|];
    simpl; intros Hf; try discriminate; split; reflexivity.
Qed.

(** X14. After a failed [init] the store cannot send: it is not ready, and
    every [sendMsgs] fails with "Wallet is not loaded: Loading", makes no
    call and leaves the sending flag at [false]. *)
Theorem failed_init_blocks_sending s e type msgs fee memo :
  fst (init s) = Throw e ->
  let a := inner (snd (init s)) in
  isReadyToSendMsgs a = false
  /\ sendMsgs type msgs fee memo a
     = (Throw (JsError "Wallet is not loaded: Loading"), setIsSendingMsg None a)
  /\ calls (snd (sendMsgs type msgs fee memo a)) = calls (inner s).
Proof.
  intros Hf a.
  destruct (init_failure_state s e Hf) as [Hst Hcalls]. fold a in Hst, Hcalls.
  assert (Hs : sendMsgs type msgs fee memo a
               = (Throw (JsError "Wallet is not loaded: Loading"), setIsSendingMsg None a)).
  { rewrite sendMsgs_unfold.
    rewrite broadcastMsgs_not_loaded
      by (unfold walletStatus in *; simpl; rewrite Hst; discriminate).
    unfold walletStatus in *. simpl. rewrite Hst. reflexivity. }
  split; [unfold isReadyToSendMsgs; rewrite Hst; reflexivity|].
  split; [exact Hs|]. rewrite Hs. exact Hcalls.
Qed.

End InitFacts.

(** ** Message senders *)

Section Senders.
Import Account Wallet.
Context `{Remote} `{Keplr} `{SecretApi} `{Values}.

(** X15. Withdrawing the rewards of no validator never reaches the network
    or the wallet: whatever the wallet status, the call fails (with "There is
    no msg to send" on a loaded wallet), makes no call, and leaves the store
    as it was with the sending flag at [false]. *)
Theorem withdraw_rewards_of_nobody_fails opt memo s :
  (exists e,
     sendWithdrawDelegationRewardMsgs opt [] memo s = (Throw e, setIsSendingMsg None s))
  /\ (walletStatus s = Loaded ->
      fst (sendWithdrawDelegationRewardMsgs opt [] memo s)
      = Throw (JsError "There is no msg to send"))
  /\ calls (snd (sendWithdrawDelegationRewardMsgs opt [] memo s)) = calls s.
Proof.
  assert (E : sendWithdrawDelegationRewardMsgs opt [] memo s
              = sendMsgs withdrawRewards []
                  {| fee_amount := []; fee_gas := numberToString (opt_gas opt * 0) |}
                  memo s) by reflexivity.
  rewrite E, sendMsgs_unfold.
  destruct (WalletStatus_eqb (walletStatus s) Loaded) eqn:El.
  - assert (Hl : walletStatus s = Loaded) by (destruct (walletStatus s); easy).
    rewrite broadcastMsgs_no_msg by exact Hl.
    split; [eexists; reflexivity|]. split; reflexivity.
  - rewrite broadcastMsgs_not_loaded
      by (unfold walletStatus in *; simpl; intros Hl; rewrite Hl in El; discriminate).
    split; [eexists; reflexivity|]. split; [|reflexivity].
    intros Hl. rewrite Hl in El. discriminate.
Qed.

(** Encrypting reads the store and changes nothing. *)
Lemma encryptSecretContractMsg_reads contractAddress obj s :
  snd (encryptSecretContractMsg contractAddress obj s) = s.
Proof.
  unfold encryptSecretContractMsg, bind, get, answer, throw.
  destruct (codeHashResponse contractAddress) as [[hash|]|e]; try reflexivity.
  destruct keplrPresent; reflexivity.
Qed.

(** X16. When the message for a secret contract cannot be encrypted,
    because the contract's code hash is not known, the wallet extension is
    missing or the encryption itself fails, [sendExecuteSecretContractMsg]
    fails with that error before anything is fetched, signed or sent, and
    the sending flag, raised for the encryption, is back at [false]. *)
Theorem secret_msg_not_sent_unencrypted wasmType type contractAddress obj fee memo s :
  (forall e,
     fst (encryptSecretContractMsg contractAddress obj (setIsSendingMsg (Some type) s))
       = Throw e ->
     sendExecuteSecretContractMsg wasmType type contractAddress obj fee memo s
     = (Throw e, setIsSendingMsg None s))
  /\ (codeHashResponse contractAddress = Ok None ->
      sendExecuteSecretContractMsg wasmType type contractAddress obj fee memo s
      = (Throw (JsError ("Can't get the code hash of the contract ("
                         ++ contractAddress ++ ")")),
         setIsSendingMsg None s))
  /\ (forall hash,
        codeHashResponse contractAddress = Ok (Some hash) -> keplrPresent = false ->
        sendExecuteSecretContractMsg wasmType type contractAddress obj fee memo s
        = (Throw (JsError "Can't get the Keplr API"), setIsSendingMsg None s)).
Proof.
  assert (Hfail : forall e,
            fst (encryptSecretContractMsg contractAddress obj
                   (setIsSendingMsg (Some type) s)) = Throw e ->
            sendExecuteSecretContractMsg wasmType type contractAddress obj fee memo s
            = (Throw e, setIsSendingMsg None s)).
  { intros e He. unfold sendExecuteSecretContractMsg.
    unfold bind at 1. unfold bind at 1, modify at 1, tryFinally.
    pose proof (encryptSecretContractMsg_reads contractAddress obj
                  (setIsSendingMsg (Some type) s)) as Hs.
    destruct (encryptSecretContractMsg _ _ _) as [r s'].
    simpl in He, Hs. subst r s'. reflexivity. }
  split; [exact Hfail|]. split.
  - intros Hc. apply Hfail.
    unfold encryptSecretContractMsg, bind, get, answer. rewrite Hc. reflexivity.
  - intros hash Hc Hk. apply Hfail.
    unfold encryptSecretContractMsg, bind, get, answer. rewrite Hc, Hk. reflexivity.
Qed.

End Senders.

(** ** Examples *)

(** The user rejects a sign request on an unlocked ring: nothing is signed. *)
Lemma requestSign_rejected_never_signs_witness :
  fst (@Service.requestSign Fixture.keySource Scenario.rejecting Fixture.env0
         "cosmoshub-4" [x01] false Fixture.unlockedWorld)
  = Throw UserRejectedError
  /\ Background.signingSteps
       (snd (@Service.requestSign Fixture.keySource Scenario.rejecting Fixture.env0
               "cosmoshub-4" [x01] false Fixture.unlockedWorld))
     = [].
Proof.
  destruct (@requestSign_rejected_never_signs Fixture.keySource Scenario.rejecting
              Fixture.env0 "cosmoshub-4" [x01] Fixture.unlockedWorld
              UserRejectedError eq_refl) as (Hr & Hs & _).
  split; [exact Hr|exact Hs].
Defined.

(** The user approves: the submitted message is signed by the record. *)
Lemma requestSign_approved_signs_submitted_witness :
  fst (@Service.requestSign Fixture.keySource Fixture.approving Fixture.env0
         "cosmoshub-4" [x01] false Fixture.unlockedWorld)
  = Ok [x61; x01].
Proof.
  destruct (@requestSign_approved_signs_submitted Fixture.keySource Fixture.approving
              Fixture.env0 "cosmoshub-4" [x01] Fixture.unlockedWorld _ _ eq_refl)
    as [_ Hk].
  destruct (Hk Fixture.cosmoshub eq_refl) as [Hr _].
  rewrite Hr. reflexivity.
Defined.

(** A locked ring and a user who unlocks it when asked. *)
Lemma enable_locked_follows_interaction_witness :
  fst (@Service.enable Fixture.approving Fixture.env0 Scenario.lockedWorld)
  = Ok Keyring.UNLOCKED.
Proof.
  destruct (@enable_locked_follows_interaction Fixture.approving Fixture.env0
              Scenario.lockedWorld eq_refl) as [Hok _].
  rewrite (Hok _ _ eq_refl). reflexivity.
Defined.

(** Enabling again after the unlock asks nothing more. *)
Lemma enable_again_is_noop_witness :
  @Service.enable Fixture.approving Fixture.env0 Scenario.unlockedByUser
  = (Ok Keyring.UNLOCKED, Scenario.unlockedByUser).
Proof.
  refine (proj2 (@enable_again_is_noop Fixture.approving Fixture.env0
                   Scenario.lockedWorld Keyring.UNLOCKED Scenario.unlockedByUser
                   eq_refl)
            eq_refl Fixture.env0).
Defined.

(** A locked ring cannot list a path's address. *)
Lemma getKeyStoreBIP44Selectables_all_or_nothing_witness :
  @Service.getKeyStoreBIP44Selectables Fixture.keySource Fixture.approving
     "cosmoshub-4" [{| Service.coinType := 118 |}] Scenario.lockedWorld
  = (Throw KeyRingNotUnlockedError, Scenario.lockedWorld).
Proof.
  refine (proj2 (proj2 (@getKeyStoreBIP44Selectables_all_or_nothing Fixture.keySource
                          Fixture.approving "cosmoshub-4" Scenario.lockedWorld eq_refl))
            Fixture.cosmoshub [] {| Service.coinType := 118 |} [] _ eq_refl
            (List.Forall_nil _) eq_refl).
Defined.

(** An allowed origin enables a chain the registry does not know. *)
Lemma handleEnableKeyRingMsg_order_witness :
  @Handler.handleEnableKeyRingMsg
     (@Handler.keeper Fixture.keySource Fixture.approving) Fixture.env0
     (Scenario.enableMsg "osmosis-1" Fixture.dapp)
     (Scenario.openWorld Scenario.lockedWorld)
  = (Throw ChainUnknownError, Scenario.openWorld Scenario.lockedWorld).
Proof.
  refine (proj1 (proj2 (@handleEnableKeyRingMsg_order Fixture.keySource
                          Fixture.approving Fixture.env0
                          (Scenario.enableMsg "osmosis-1" Fixture.dapp)
                          (Scenario.openWorld Scenario.lockedWorld)))
            eq_refl eq_refl).
Defined.

(** The address the get-key handler reports to the dapp passes the check. *)
Lemma handleGetKeyMsg_address_passes_check_witness :
  @Service.checkBech32Address Fixture.keySource Fixture.approving "cosmoshub-4"
     ("cosmos1" ++ string_of_list_byte [x61; x01; x01])%string Fixture.unlockedWorld
  = (Ok tt, Fixture.unlockedWorld).
Proof.
  refine (proj2 (proj2 (@handleGetKeyMsg_address_passes_check Fixture.keySource
                          Fixture.approving Scenario.codec Fixture.env0
                          (Scenario.getKeyMsg Fixture.dapp) Fixture.unlockedWorld))
            {| KeyHandler.res_name := ""; KeyHandler.res_algo := "secp256k1";
               KeyHandler.res_pubKeyHex := string_of_list_byte [x61];
               KeyHandler.res_addressHex := string_of_list_byte [x61; x01; x01];
               KeyHandler.res_bech32Address :=
                 ("cosmos1" ++ string_of_list_byte [x61; x01; x01])%string |}
            (fun _ _ => eq_refl) eq_refl).
Defined.

(** With exact arithmetic the fee of the hub always resolves. *)
Lemma getFeePrimitive_fails_only_in_arithmetic_witness :
  exists r,
    @Fee.getFeePrimitive Fixture.dec
       (Fee.setFeeType (Some Fee.high) (Fee.new Fixture.hubFees 80000)) = Ok r.
Proof.
  refine (proj1 (proj2 (proj2 (@getFeePrimitive_fails_only_in_arithmetic Fixture.dec
                   (Fee.setFeeType (Some Fee.high) (Fee.new Fixture.hubFees 80000))))
            (fun p g => ex_intro _ _ eq_refl))).
Defined.

(** On a chain without a fee currency the standard fee carries no coin, even
    with a manual fee set. *)
Lemma toStdFee_amount_witness :
  Fee.fee_amount {| Fee.fee_gas := "80000"; Fee.fee_amount := [] |} = []
  <-> @Fee.getFeePrimitive Fixture.dec
        (Fee.setManualFee Fixture.manual (Fee.new Fixture.noFeeCurrency 80000))
      = Ok None.
Proof.
  refine (proj1 (proj2 (proj2 (@toStdFee_amount Fixture.dec
                   (Fee.setManualFee Fixture.manual (Fee.new Fixture.noFeeCurrency 80000))
                   _ eq_refl)))).
Defined.

(** A loaded wallet sends one message: six calls, the flag raised. *)
Lemma sendMsgs_success_sequence_witness :
  Account.isSendingMsg
    (snd (@Account.sendMsgs Fixture.remote Account.send [Fixture.sendMsg]
            Fixture.stdFee "" (Fixture.account Account.Loaded)))
  = Some Account.send.
Proof.
  refine (proj1 (proj2 (@sendMsgs_success_sequence Fixture.remote Account.send
                   [Fixture.sendMsg] Fixture.stdFee "" (Fixture.account Account.Loaded)
                   _ _ _ eq_refl _ eq_refl eq_refl eq_refl eq_refl))).
  discriminate.
Defined.


(** The user does not approve the chain: the store cannot send. *)
Lemma failed_init_blocks_sending_witness :
  Account.isReadyToSendMsgs
    (Wallet.inner
       (snd (@Wallet.init Fixture.remote Scenario.refusingKeplr
               (Wallet.constructed "cosmoshub-4" "https://lcd.example"
                  "https://rpc.example" false))))
  = false.
Proof.
  refine (proj1 (@failed_init_blocks_sending Fixture.remote Scenario.refusingKeplr
                   (Wallet.constructed "cosmoshub-4" "https://lcd.example"
                      "https://rpc.example" false)
                   (ExternalError "Request rejected") Account.send [Fixture.sendMsg]
                   Fixture.stdFee "" eq_refl)).
Defined.

(** A loaded wallet is asked to withdraw rewards of no validator. *)
Lemma withdraw_rewards_of_nobody_fails_witness :
  fst (@Wallet.sendWithdrawDelegationRewardMsgs Fixture.remote Scenario.keplr
         Scenario.values Scenario.withdrawOpt [] "" (Fixture.account Account.Loaded))
  = Throw (JsError "There is no msg to send").
Proof.
  refine (proj1 (proj2 (@withdraw_rewards_of_nobody_fails Fixture.remote Scenario.keplr
                          Scenario.values Scenario.withdrawOpt ""
                          (Fixture.account Account.Loaded))) eq_refl).
Defined.

(** A contract whose code hash is unknown. *)
Lemma secret_msg_not_sent_unencrypted_witness :
  @Wallet.sendExecuteSecretContractMsg Fixture.remote Scenario.keplr
     Scenario.noCodeHash Scenario.values "wasm/MsgExecuteContract"
     Account.executeSecretWasm "secret1c" "{}" Fixture.stdFee ""
     (Fixture.account Account.Loaded)
  = (Throw (JsError "Can't get the code hash of the contract (secret1c)"),
     Fixture.account Account.Loaded).
Proof.
  refine (proj1 (proj2 (@secret_msg_not_sent_unencrypted Fixture.remote Scenario.keplr
                          Scenario.noCodeHash Scenario.values "wasm/MsgExecuteContract"
                          Account.executeSecretWasm "secret1c" "{}" Fixture.stdFee ""
                          (Fixture.account Account.Loaded))) eq_refl).
Defined.
